(** * Admin dashboard (src/app/admin-dashboard/page.tsx)

    A shallow embedding of the logic of the admin page: the slug derived
    from a product name, the sales tally over the order snapshot, the
    seeding of the default taxonomy, the product form (submit, image
    upload callbacks), the taxonomy dialogs, the order-status handler and
    the access gate.

    JavaScript strings are sequences of UTF-16 code units.  Here a string
    is a Rocq [string] whose characters stand for the code units 0..255
    (Basic Latin and Latin-1 Supplement); on that range [toLowerCase],
    [trim] and the regular-expression class [\s] are written out below
    exactly as ECMAScript defines them. *)

From Stdlib Require Import Ascii String ZArith QArith List Bool Lia.
From stdpp Require Import gmap strings list pretty.

(** ** JavaScript string primitives *)

Module Js.

Local Open Scope N_scope.

Definition code (c : ascii) : N := N_of_ascii c.

(** ECMAScript WhiteSpace and LineTerminator code units below 256:
    TAB, LF, VT, FF, CR, SPACE and NBSP.  This is the set that [trim]
    removes and that the class [\s] matches. *)
Definition is_space (c : ascii) : bool :=
  let n := code c in
  ((9 <=? n) && (n <=? 13)) || (n =? 32) || (n =? 160).

(** Upper-case letters: A-Z, and the Latin-1 capitals U+00C0..U+00DE
    except the multiplication sign U+00D7. *)
Definition is_upper (c : ascii) : bool :=
  let n := code c in
  ((65 <=? n) && (n <=? 90)) ||
  ((192 <=? n) && (n <=? 222) && negb (n =? 215)).

Definition lower_char (c : ascii) : ascii :=
  if is_upper c then ascii_of_N (code c + 32) else c.

(** [s.toLowerCase()] *)
Fixpoint toLowerCase (s : string) : string :=
  match s with
  | EmptyString => EmptyString
  | String c r => String (lower_char c) (toLowerCase r)
  end.

(** [s.trimStart()] *)
Fixpoint trimStart (s : string) : string :=
  match s with
  | EmptyString => EmptyString
  | String c r => if is_space c then trimStart r else s
  end.

(** [s.trimEnd()] *)
Fixpoint trimEnd (s : string) : string :=
  match s with
  | EmptyString => EmptyString
  | String c r =>
      match trimEnd r with
      | EmptyString => if is_space c then EmptyString else String c EmptyString
      | t => String c t
      end
  end.

(** [s.trim()] *)
Definition trim (s : string) : string := trimEnd (trimStart s).

(** Truthiness of a string: every string but the empty one. *)
Definition truthy (s : string) : bool :=
  match s with EmptyString => false | String _ _ => true end.

(** [s.replace(/[cls]/g, rep)]: every code unit of the class is a match
    of its own. *)
Fixpoint replace_class (cls : ascii -> bool) (rep s : string) : string :=
  match s with
  | EmptyString => EmptyString
  | String c r =>
      if cls c then rep +:+ replace_class cls rep r
      else String c (replace_class cls rep r)
  end.

(** [s.replace(/[cls]+/g, rep)]: the quantifier is greedy, so a match that
    starts at a code unit of the class swallows the code units of the
    class that follow it ([skip]); the scan resumes behind the match. *)
Fixpoint replace_plus (cls : ascii -> bool) (rep s : string) : string :=
  match s with
  | EmptyString => EmptyString
  | String c r =>
      if cls c then
        rep +:+
        (fix skip (t : string) : string :=
           match t with
           | EmptyString => EmptyString
           | String d u =>
               if cls d then skip u else String d (replace_plus cls rep u)
           end) r
      else String c (replace_plus cls rep r)
  end.

End Js.

(** ** Slug derivation (the slug effect, lines 155-161) *)

Definition is_amp (c : ascii) : bool := (Js.code c =? 38)%N.
Definition is_hyphen (c : ascii) : bool := (Js.code c =? 45)%N.
Definition is_az (c : ascii) : bool :=
  ((97 <=? Js.code c) && (Js.code c <=? 122))%N.
Definition is_digit (c : ascii) : bool :=
  ((48 <=? Js.code c) && (Js.code c <=? 57))%N.

(** The class [[a-z0-9\s-]] and its negation [[^a-z0-9\s-]]. *)
Definition slug_class (c : ascii) : bool :=
  is_az c || is_digit c || Js.is_space c || is_hyphen c.
Definition outside_slug_class (c : ascii) : bool := negb (slug_class c).

(** [nameValue.toLowerCase().trim().replace(/&/g, 'and')
      .replace(/[^a-z0-9\s-]/g, '').replace(/\s+/g, '-').replace(/-+/g, '-')] *)
Definition generatedSlug (nameValue : string) : string :=
  Js.replace_plus is_hyphen "-"
    (Js.replace_plus Js.is_space "-"
       (Js.replace_class outside_slug_class ""
          (Js.replace_class is_amp "and"
             (Js.trim (Js.toLowerCase nameValue))))).

(** *** The derivation in the words of the specification

    Each step of the prose is given a definition of its own, written
    without reference to the regular expressions of the code. *)

(** "replace every [&] with [and]" *)
Fixpoint spec_expand_amp (s : string) : string :=
  match s with
  | EmptyString => EmptyString
  | String c r =>
      (if Ascii.eqb c "&" then "and" else String c EmptyString)
        +:+ spec_expand_amp r
  end.

(** "strip all characters outside [a-z0-9\s-]": keep the others. *)
Fixpoint spec_keep (keep : ascii -> bool) (s : string) : string :=
  match s with
  | EmptyString => EmptyString
  | String c r =>
      if keep c then String c (spec_keep keep r) else spec_keep keep r
  end.

Fixpoint all_in (cls : ascii -> bool) (s : string) : bool :=
  match s with
  | EmptyString => true
  | String c r => cls c && all_in cls r
  end.

Definition starts_in (cls : ascii -> bool) (s : string) : bool :=
  match s with
  | EmptyString => false
  | String c _ => cls c
  end.

(** The longest prefix of [s] inside [cls], and what follows it. *)
Fixpoint take_run (cls : ascii -> bool) (s : string) : string :=
  match s with
  | EmptyString => EmptyString
  | String c r => if cls c then String c (take_run cls r) else EmptyString
  end.

Fixpoint drop_run (cls : ascii -> bool) (s : string) : string :=
  match s with
  | EmptyString => EmptyString
  | String c r => if cls c then drop_run cls r else s
  end.

(** "collapse each run to a single hyphen": [Collapsed cls h s t] reads
    [s] as a sequence of code units outside [cls], copied to [t], and of
    maximal non-empty runs of [cls], each of which gives one [h]. *)
Inductive Collapsed (cls : ascii -> bool) (h : ascii) : string -> string -> Prop :=
| Collapsed_end : Collapsed cls h EmptyString EmptyString
| Collapsed_copy c s t :
    cls c = false -> Collapsed cls h s t ->
    Collapsed cls h (String c s) (String c t)
| Collapsed_run c run s t :
    cls c = true -> all_in cls run = true -> starts_in cls s = false ->
    Collapsed cls h s t ->
    Collapsed cls h (String c (run +:+ s)) (String h t).

Definition hyphen : ascii := "-"%char.

(** The whole derivation as a relation between a name and a slug. *)
Definition SlugSpec (name slug : string) : Prop :=
  exists spaced : string,
    Collapsed Js.is_space hyphen
      (spec_keep slug_class
         (spec_expand_amp (Js.trim (Js.toLowerCase name)))) spaced /\
    Collapsed is_hyphen hyphen spaced slug.

(** ** Documents and writes *)

(** Sentinel of [serverTimestamp()]. *)
Inductive FieldValue := serverTimestamp.

(** [number | null | undefined] and the like. *)
Inductive Optional (A : Type) :=
| Undefined : Optional A
| Null : Optional A
| Value : A -> Optional A.
Arguments Undefined {A}.
Arguments Null {A}.
Arguments Value {A} _.

Record Color := { color_name : string; hex : string }.

(** [ProductFormData], the type inferred from [productSchema].  Numbers
    are the integers among the JavaScript numbers ([z.coerce.number()]
    admits no NaN); an optional string is [None] when [undefined]. *)
Record ProductFormData := {
  name : string;
  slug : string;
  description : string;
  category : string;
  style : option string;
  price : Z;
  originalPrice : Optional Z;
  imageUrl1 : option string;
  imageUrl2 : option string;
  imageUrl3 : option string;
  imageUrl4 : option string;
  sizes : list string;
  availableColors : list Color;
  isFeatured : option bool
}.

Record Image := { url : string; alt : string; hint : string }.

(** The object written by [onSubmit]: the spread [...data] and the
    properties set after it.  [None] is [null] in [doc_style] and
    [doc_originalPrice], and an absent property in [createdAt]. *)
Record ProductDoc := {
  doc_data : ProductFormData;
  doc_style : option string;
  doc_originalPrice : option Z;
  images : list Image;
  doc_isFeatured : bool;
  updatedAt : FieldValue;
  createdAt : option FieldValue
}.

Inductive DocData :=
| NameData (n : string)
| ProductData (p : ProductDoc)
| StatusData (status : string).

(** Calls of [addDocumentNonBlocking(collection(firestore, col), data)] and
    [updateDocumentNonBlocking(doc(firestore, col, id), data)]. *)
Inductive Write :=
| addDocument (col : string) (data : DocData)
| updateDocument (col id : string) (data : DocData).

(** ** Sales tally ([salesCount], lines 105-114) *)

(** Modelled from the spec: the type [Order] of [@/lib/types], which is
    not among the sources; section 3 of the specification gives an order
    an id, product lines [{id, name, quantity}] and a status, the fields
    this page reads or writes.  Quantities are integers. *)
Record OrderLine := { line_id : string; line_name : string; quantity : Z }.
Record Order := { order_id : string; products : list OrderLine; status : string }.

(** [v || 0] for a number [v] read from the object ([None] when the key is
    absent): [undefined] and [0] are falsy. *)
Definition or_zero (v : option Z) : Z :=
  match v with
  | Some n => if (n =? 0)%Z then 0%Z else n
  | None => 0%Z
  end.

(** [counts[product.id] = (counts[product.id] || 0) + product.quantity].
    The object [counts] is a map from its own keys; product ids are
    document ids, none of them the name of a property that a plain object
    inherits. *)
Definition tally_line (counts : gmap string Z) (product : OrderLine) : gmap string Z :=
  <[line_id product := (or_zero (counts !! line_id product) + quantity product)%Z]> counts.

Definition tally_order (counts : gmap string Z) (order : Order) : gmap string Z :=
  foldl tally_line counts (products order).

(** [orders] is [None] while the snapshot is [null]. *)
Definition salesCount (orders : option (list Order)) : gmap string Z :=
  match orders with
  | None => ∅
  | Some os => foldl tally_order ∅ os
  end.

(** The lines of all orders, in order, and the sum of the quantities sold
    under one product id. *)
Definition all_lines (os : list Order) : list OrderLine :=
  concat (map products os).

Fixpoint sold (id : string) (ls : list OrderLine) : Z :=
  match ls with
  | [] => 0%Z
  | l :: r => ((if String.eqb (line_id l) id then quantity l else 0) + sold id r)%Z
  end.

(** ** Taxonomy seeding (the seeding effect, lines 119-142) *)

(** [Category] and [Style] are the same type [{ id; name }]. *)
Record Category := { cat_id : string; cat_name : string }.

Definition defaultCategories : list string := ["Women"; "Men"; "Unisex"; "Bags"].
Definition defaultStyles : list string :=
  ["Casual"; "Streetwear"; "Formal"; "Vintage"; "Minimal"; "Small"; "Big"; "Luggage"].

(** [new Set(docs.map(c => c.name.toLowerCase()))] *)
Definition existingNames (docs : list Category) : gset string :=
  list_to_set ((fun c => Js.toLowerCase (cat_name c)) <$> docs).

(** The [forEach] over the defaults: one [addDocumentNonBlocking] for
    each name whose lower-case form is not in the set. *)
Definition seedCollection (col : string) (defaults : list string)
    (docs : list Category) : list Write :=
  let existing := existingNames docs in
  (fun n => addDocument col (NameData n)) <$>
    filter (fun n => Js.toLowerCase n ∉ existing) defaults.

(** The effect with its guards; a snapshot is [None] while it is [null]. *)
Definition seedEffect (firestore isLoadingCategories isLoadingStyles : bool)
    (categories styles : option (list Category)) : list Write :=
  if negb firestore || isLoadingCategories || isLoadingStyles then []
  else
    (match categories with
     | Some cs => seedCollection "categories" defaultCategories cs
     | None => []
     end) ++
    (match styles with
     | Some ss => seedCollection "styles" defaultStyles ss
     | None => []
     end).

(** The two taxonomy collections of the backend, and the effect of the
    writes on them: an added document gets an id chosen by the backend
    ([newId], any function of the collection), and is appended. *)
Record Taxonomy := { categories : list Category; styles : list Category }.

Definition addNamed (newId : list Category -> string) (n : string)
    (docs : list Category) : list Category :=
  docs ++ [{| cat_id := newId docs; cat_name := n |}].

Definition applyWrite (newId : list Category -> string) (t : Taxonomy)
    (w : Write) : Taxonomy :=
  match w with
  | addDocument col (NameData n) =>
      if String.eqb col "categories" then
        {| categories := addNamed newId n (categories t); styles := styles t |}
      else if String.eqb col "styles" then
        {| categories := categories t; styles := addNamed newId n (styles t) |}
      else t
  | _ => t
  end.

(** The writes of the effect over a loaded store, which it reads through
    the two snapshots. *)
Definition seedWrites (t : Taxonomy) : list Write :=
  seedEffect true false false (Some (categories t)) (Some (styles t)).

(** One pass of seeding: the writes of the effect reach the store. *)
Definition seed (newId : list Category -> string) (t : Taxonomy) : Taxonomy :=
  foldl (applyWrite newId) t (seedWrites t).

Definition names (docs : list Category) : list string := cat_name <$> docs.
Definition lowerNames (docs : list Category) : list string :=
  (fun c => Js.toLowerCase (cat_name c)) <$> docs.

Definition addCategory (n : string) : Write := addDocument "categories" (NameData n).
Definition addStyle (n : string) : Write := addDocument "styles" (NameData n).

(** The names that a pass of seeding adds to a collection. *)
Definition missing (defaults : list string) (docs : list Category) : list string :=
  filter (fun n => Js.toLowerCase n ∉ lowerNames docs) defaults.

(** ** State of [DashboardContent] *)

(** Modelled from the spec: the type [Product] of [@/lib/types], which is
    not among the sources; the fields are those of section 3 of the
    specification that the page reads. *)
Record Product := {
  product_id : string;
  product_name : string;
  product_slug : string;
  product_description : string;
  product_category : string;
  product_style : option string;
  product_price : Z;
  product_originalPrice : Optional Z;
  product_images : option (list Image);
  product_sizes : option (list string);
  product_availableColors : option (list Color);
  product_isFeatured : option bool
}.

(** The [useState] cells and the form of the component, the Firestore
    handle ([firestore] is [false] while the hook gives [null]), and what
    the handlers leave on the console and in the toaster. *)
Record Dashboard := {
  firestore : bool;
  form : ProductFormData;
  editingProduct : option Product;
  isDialogOpen : bool;
  uploading : bool;
  uploadProgress : Q;
  uploadedUrl : option string;
  isCategoryDialogOpen : bool;
  newCategoryName : string;
  isStyleDialogOpen : bool;
  newStyleName : string;
  console : list (list string);
  toasts : list (string * string)
}.

Definition set_form (f : ProductFormData) (st : Dashboard) : Dashboard :=
  {| firestore := firestore st; form := f; editingProduct := editingProduct st;
     isDialogOpen := isDialogOpen st; uploading := uploading st;
     uploadProgress := uploadProgress st; uploadedUrl := uploadedUrl st;
     isCategoryDialogOpen := isCategoryDialogOpen st;
     newCategoryName := newCategoryName st;
     isStyleDialogOpen := isStyleDialogOpen st; newStyleName := newStyleName st;
     console := console st; toasts := toasts st |}.

Definition setEditingProduct (p : option Product) (st : Dashboard) : Dashboard :=
  {| firestore := firestore st; form := form st; editingProduct := p;
     isDialogOpen := isDialogOpen st; uploading := uploading st;
     uploadProgress := uploadProgress st; uploadedUrl := uploadedUrl st;
     isCategoryDialogOpen := isCategoryDialogOpen st;
     newCategoryName := newCategoryName st;
     isStyleDialogOpen := isStyleDialogOpen st; newStyleName := newStyleName st;
     console := console st; toasts := toasts st |}.

Definition setIsDialogOpen (b : bool) (st : Dashboard) : Dashboard :=
  {| firestore := firestore st; form := form st; editingProduct := editingProduct st;
     isDialogOpen := b; uploading := uploading st;
     uploadProgress := uploadProgress st; uploadedUrl := uploadedUrl st;
     isCategoryDialogOpen := isCategoryDialogOpen st;
     newCategoryName := newCategoryName st;
     isStyleDialogOpen := isStyleDialogOpen st; newStyleName := newStyleName st;
     console := console st; toasts := toasts st |}.

Definition setUploading (b : bool) (st : Dashboard) : Dashboard :=
  {| firestore := firestore st; form := form st; editingProduct := editingProduct st;
     isDialogOpen := isDialogOpen st; uploading := b;
     uploadProgress := uploadProgress st; uploadedUrl := uploadedUrl st;
     isCategoryDialogOpen := isCategoryDialogOpen st;
     newCategoryName := newCategoryName st;
     isStyleDialogOpen := isStyleDialogOpen st; newStyleName := newStyleName st;
     console := console st; toasts := toasts st |}.

Definition setUploadedUrl (u : option string) (st : Dashboard) : Dashboard :=
  {| firestore := firestore st; form := form st; editingProduct := editingProduct st;
     isDialogOpen := isDialogOpen st; uploading := uploading st;
     uploadProgress := uploadProgress st; uploadedUrl := u;
     isCategoryDialogOpen := isCategoryDialogOpen st;
     newCategoryName := newCategoryName st;
     isStyleDialogOpen := isStyleDialogOpen st; newStyleName := newStyleName st;
     console := console st; toasts := toasts st |}.

Definition setIsCategoryDialogOpen (b : bool) (st : Dashboard) : Dashboard :=
  {| firestore := firestore st; form := form st; editingProduct := editingProduct st;
     isDialogOpen := isDialogOpen st; uploading := uploading st;
     uploadProgress := uploadProgress st; uploadedUrl := uploadedUrl st;
     isCategoryDialogOpen := b;
     newCategoryName := newCategoryName st;
     isStyleDialogOpen := isStyleDialogOpen st; newStyleName := newStyleName st;
     console := console st; toasts := toasts st |}.

Definition setNewCategoryName (n : string) (st : Dashboard) : Dashboard :=
  {| firestore := firestore st; form := form st; editingProduct := editingProduct st;
     isDialogOpen := isDialogOpen st; uploading := uploading st;
     uploadProgress := uploadProgress st; uploadedUrl := uploadedUrl st;
     isCategoryDialogOpen := isCategoryDialogOpen st;
     newCategoryName := n;
     isStyleDialogOpen := isStyleDialogOpen st; newStyleName := newStyleName st;
     console := console st; toasts := toasts st |}.

Definition setIsStyleDialogOpen (b : bool) (st : Dashboard) : Dashboard :=
  {| firestore := firestore st; form := form st; editingProduct := editingProduct st;
     isDialogOpen := isDialogOpen st; uploading := uploading st;
     uploadProgress := uploadProgress st; uploadedUrl := uploadedUrl st;
     isCategoryDialogOpen := isCategoryDialogOpen st;
     newCategoryName := newCategoryName st;
     isStyleDialogOpen := b; newStyleName := newStyleName st;
     console := console st; toasts := toasts st |}.

Definition setNewStyleName (n : string) (st : Dashboard) : Dashboard :=
  {| firestore := firestore st; form := form st; editingProduct := editingProduct st;
     isDialogOpen := isDialogOpen st; uploading := uploading st;
     uploadProgress := uploadProgress st; uploadedUrl := uploadedUrl st;
     isCategoryDialogOpen := isCategoryDialogOpen st;
     newCategoryName := newCategoryName st;
     isStyleDialogOpen := isStyleDialogOpen st; newStyleName := n;
     console := console st; toasts := toasts st |}.

(** [console.error(...args)] *)
Definition console_error (args : list string) (st : Dashboard) : Dashboard :=
  {| firestore := firestore st; form := form st; editingProduct := editingProduct st;
     isDialogOpen := isDialogOpen st; uploading := uploading st;
     uploadProgress := uploadProgress st; uploadedUrl := uploadedUrl st;
     isCategoryDialogOpen := isCategoryDialogOpen st;
     newCategoryName := newCategoryName st;
     isStyleDialogOpen := isStyleDialogOpen st; newStyleName := newStyleName st;
     console := console st ++ [args]; toasts := toasts st |}.


(** ** The product form *)

Definition defaultValues : ProductFormData :=
  {| name := ""; slug := ""; description := ""; category := ""; style := Some "";
     price := 0; originalPrice := Null; imageUrl1 := Some ""; imageUrl2 := Some "";
     imageUrl3 := Some ""; imageUrl4 := Some ""; sizes := []; availableColors := [];
     isFeatured := Some false |}.

Definition setName (v : string) (f : ProductFormData) : ProductFormData :=
  {| name := v; slug := slug f; description := description f;
     category := category f; style := style f; price := price f;
     originalPrice := originalPrice f; imageUrl1 := imageUrl1 f;
     imageUrl2 := imageUrl2 f; imageUrl3 := imageUrl3 f; imageUrl4 := imageUrl4 f;
     sizes := sizes f; availableColors := availableColors f;
     isFeatured := isFeatured f |}.

Definition setSlug (v : string) (f : ProductFormData) : ProductFormData :=
  {| name := name f; slug := v; description := description f;
     category := category f; style := style f; price := price f;
     originalPrice := originalPrice f; imageUrl1 := imageUrl1 f;
     imageUrl2 := imageUrl2 f; imageUrl3 := imageUrl3 f; imageUrl4 := imageUrl4 f;
     sizes := sizes f; availableColors := availableColors f;
     isFeatured := isFeatured f |}.

Inductive ImageField := ImageUrl1 | ImageUrl2 | ImageUrl3 | ImageUrl4.

(** [form.getValues(field)] and [form.setValue(field, v)] on the four
    image fields. *)
Definition getValues (field : ImageField) (f : ProductFormData) : option string :=
  match field with
  | ImageUrl1 => imageUrl1 f
  | ImageUrl2 => imageUrl2 f
  | ImageUrl3 => imageUrl3 f
  | ImageUrl4 => imageUrl4 f
  end.

Definition setValue (field : ImageField) (v : string) (f : ProductFormData)
    : ProductFormData :=
  {| name := name f; slug := slug f; description := description f;
     category := category f; style := style f; price := price f;
     originalPrice := originalPrice f;
     imageUrl1 := match field with ImageUrl1 => Some v | _ => imageUrl1 f end;
     imageUrl2 := match field with ImageUrl2 => Some v | _ => imageUrl2 f end;
     imageUrl3 := match field with ImageUrl3 => Some v | _ => imageUrl3 f end;
     imageUrl4 := match field with ImageUrl4 => Some v | _ => imageUrl4 f end;
     sizes := sizes f; availableColors := availableColors f;
     isFeatured := isFeatured f |}.

(** Truthiness of [string | undefined]. *)
Definition truthy_opt (v : option string) : bool :=
  match v with
  | Some s => Js.truthy s
  | None => false
  end.

(** The slug effect: [if (!editingProduct && nameValue) form.setValue('slug', ...)]. *)
Definition slugEffect (st : Dashboard) : Dashboard :=
  let nameValue := name (form st) in
  if negb (bool_decide (is_Some (editingProduct st))) && Js.truthy nameValue
  then set_form (setSlug (generatedSlug nameValue) (form st)) st
  else st.

(** The name field takes the value [v]; the slug effect has [nameValue]
    among its dependencies and runs when the value has changed. *)
Definition changeName (v : string) (st : Dashboard) : Dashboard :=
  let st' := set_form (setName v (form st)) st in
  if String.eqb v (name (form st)) then st' else slugEffect st'.

(** A sequence of edits of the name field. *)
Definition changeNames (vs : list string) (st : Dashboard) : Dashboard :=
  foldl (fun s v => changeName v s) st vs.

(** [v || ''] on [string | undefined]. *)
Definition or_empty (v : option string) : string :=
  match v with
  | Some s => s
  | None => ""
  end.

(** [editingProduct.images?.[i]?.url || ''] *)
Definition image_url_at (i : nat) (imgs : option (list Image)) : string :=
  or_empty (url <$> (imgs ≫= fun l => l !! i)).

(** The record given to [form.reset] when an edit target is selected. *)
Definition hydrated (p : Product) : ProductFormData :=
  {| name := product_name p; slug := product_slug p;
     description := product_description p; category := product_category p;
     style := Some (or_empty (product_style p)); price := product_price p;
     originalPrice := product_originalPrice p;
     imageUrl1 := Some (image_url_at 0 (product_images p));
     imageUrl2 := Some (image_url_at 1 (product_images p));
     imageUrl3 := Some (image_url_at 2 (product_images p));
     imageUrl4 := Some (image_url_at 3 (product_images p));
     sizes := default [] (product_sizes p);
     availableColors := default [] (product_availableColors p);
     isFeatured := Some (default false (product_isFeatured p)) |}.

(** [openEditDialog], followed by the effects its render runs: the slug
    effect (the edit target has changed), the reset of the form to the
    target, and the slug effect again (the name has changed). *)
Definition openEditDialog (p : Product) (st : Dashboard) : Dashboard :=
  let st1 := slugEffect (setIsDialogOpen true (setEditingProduct (Some p) st)) in
  slugEffect (set_form (hydrated p) st1).

(** [[u1, u2, u3, u4].filter(url => !!url)], narrowed to strings. *)
Definition filled (urls : list (option string)) : list string :=
  omap (fun u => match u with
                 | Some s => if Js.truthy s then Some s else None
                 | None => None
                 end) urls.

(** [v || null] on [string | undefined]. *)
Definition string_or_null (v : option string) : option string :=
  match v with
  | Some s => if Js.truthy s then Some s else None
  | None => None
  end.

(** [v || null] on [number | null | undefined]: [0] is falsy too. *)
Definition number_or_null (v : Optional Z) : option Z :=
  match v with
  | Value n => if (n =? 0)%Z then None else Some n
  | _ => None
  end.

Definition productData (data : ProductFormData) : ProductDoc :=
  let images :=
    (fun u => {| url := u; alt := name data; hint := "product image" |}) <$>
      filled [imageUrl1 data; imageUrl2 data; imageUrl3 data; imageUrl4 data] in
  {| doc_data := data;
     doc_style := string_or_null (style data);
     doc_originalPrice := number_or_null (originalPrice data);
     images := images;
     doc_isFeatured := default false (isFeatured data);
     updatedAt := serverTimestamp;
     createdAt := None |}.

(** [{ ...productData, createdAt: serverTimestamp() }] *)
Definition withCreatedAt (d : ProductDoc) : ProductDoc :=
  {| doc_data := doc_data d; doc_style := doc_style d;
     doc_originalPrice := doc_originalPrice d; images := images d;
     doc_isFeatured := doc_isFeatured d; updatedAt := updatedAt d;
     createdAt := Some serverTimestamp |}.

(** [onSubmit(data)]: the new state and the writes sent to the backend. *)
Definition onSubmit (data : ProductFormData) (st : Dashboard)
    : Dashboard * list Write :=
  if negb (firestore st) then (st, [])
  else
    let w :=
      match editingProduct st with
      | Some p => updateDocument "products" (product_id p) (ProductData (productData data))
      | None => addDocument "products" (ProductData (withCreatedAt (productData data)))
      end in
    (setEditingProduct None (setIsDialogOpen false st), [w]).

(** ** Upload callbacks of [handleImageUpload] (lines 174-191) *)

Definition imageFields : list ImageField := [ImageUrl1; ImageUrl2; ImageUrl3; ImageUrl4].

(** The error callback. *)
Definition uploadFailed (error : string) (st : Dashboard) : Dashboard :=
  setUploading false (console_error ["Upload failed"; error] st).

(** The completion callback, once [getDownloadURL] has resolved. *)
Definition uploadCompleted (downloadURL : string) (st : Dashboard) : Dashboard :=
  let st' := setUploading false (setUploadedUrl (Some downloadURL) st) in
  match List.find (fun field => negb (truthy_opt (getValues field (form st')))) imageFields with
  | Some firstEmptyField => set_form (setValue firstEmptyField downloadURL (form st')) st'
  | None => st'
  end.

(** ** Taxonomy dialogs (lines 258-270) *)

Definition handleAddCategory (st : Dashboard) : Dashboard * list Write :=
  if negb (firestore st) || negb (Js.truthy (Js.trim (newCategoryName st)))
  then (st, [])
  else (setIsCategoryDialogOpen false (setNewCategoryName "" st),
        [addDocument "categories" (NameData (Js.trim (newCategoryName st)))]).

Definition handleAddStyle (st : Dashboard) : Dashboard * list Write :=
  if negb (firestore st) || negb (Js.truthy (Js.trim (newStyleName st)))
  then (st, [])
  else (setIsStyleDialogOpen false (setNewStyleName "" st),
        [addDocument "styles" (NameData (Js.trim (newStyleName st)))]).

(** ** Order status (lines 272-279, 534-547) *)

(** Modelled from the spec: the type [Order['status']] of [@/lib/types],
    which is not among the sources; the specification gives it the
    values pending, shipped, delivered and cancelled.  It is the type of
    the [status] parameter of [handleUpdateOrderStatus]. *)
Inductive OrderStatus := Pending | Shipped | Delivered | Cancelled.

(** Types are erased when the page runs: a status is then the string of
    its literal, and that string is what reaches the handler and the
    backend. *)
Definition status_value (s : OrderStatus) : string :=
  match s with
  | Pending => "pending"
  | Shipped => "shipped"
  | Delivered => "delivered"
  | Cancelled => "cancelled"
  end.






(** ** Access gate ([AdminDashboard], lines 566-659) *)

(** The signed-in user: [email] is [None] when it is [null]. *)
Record User := { email : option string }.

Inductive View := LoadingPlaceholder | DashboardView | AccessDenied | LoginForm.

(** [user.email === ADMIN_EMAIL], where [user.email] is [string | null]
    and [ADMIN_EMAIL] is [string | undefined]: [null] and [undefined] are
    not strictly equal, so the two are equal only as equal strings. *)
Definition email_is (e : option string) (ADMIN_EMAIL : option string) : bool :=
  match e, ADMIN_EMAIL with
  | Some a, Some b => String.eqb a b
  | _, _ => false
  end.

(** [user && p(user)] *)
Definition user_and (user : option User) (p : User -> bool) : bool :=
  match user with
  | Some u => p u
  | None => false
  end.

Definition AdminDashboard (isUserLoading : bool) (user : option User)
    (ADMIN_EMAIL : option string) : View :=
  if isUserLoading then LoadingPlaceholder
  else if user_and user (fun u => email_is (email u) ADMIN_EMAIL) then DashboardView
  else if user_and user (fun u => negb (email_is (email u) ADMIN_EMAIL)) then AccessDenied
  else LoginForm.

(** ** Auxiliary notions of the statements *)

(** Position of an image field in the scan order of the upload callback. *)
Definition field_index (field : ImageField) : nat :=
  match field with
  | ImageUrl1 => 1
  | ImageUrl2 => 2
  | ImageUrl3 => 3
  | ImageUrl4 => 4
  end.

(** The last code unit of [s] is in [cls]. *)
Fixpoint ends_in (cls : ascii -> bool) (s : string) : bool :=
  match s with
  | EmptyString => false
  | String c EmptyString => cls c
  | String _ r => ends_in cls r
  end.

(** The fields of the form other than the four image fields. *)
Definition other_fields (f : ProductFormData) :=
  (name f, slug f, description f, category f, style f, price f,
   originalPrice f, sizes f, availableColors f, isFeatured f).

(** ** States used in the examples *)

(** The component as first rendered, with the Firestore handle at hand. *)
Definition freshDashboard : Dashboard :=
  {| firestore := true; form := defaultValues; editingProduct := None;
     isDialogOpen := false; uploading := false; uploadProgress := 0%Q;
     uploadedUrl := None; isCategoryDialogOpen := false; newCategoryName := "";
     isStyleDialogOpen := false; newStyleName := ""; console := []; toasts := [] |}.

(** A filled form: two image urls, in the first and the third field. *)
Definition bagForm : ProductFormData :=
  {| name := "Men & Women's Bags!"; slug := "men-and-womens-bags";
     description := "Bags"; category := "Bags"; style := Some "";
     price := 1500; originalPrice := Null;
     imageUrl1 := Some "https://img.example/1.png"; imageUrl2 := Some "";
     imageUrl3 := Some "https://img.example/3.png"; imageUrl4 := None;
     sizes := []; availableColors := []; isFeatured := Some false |}.

(** The dashboard with that form in its dialog. *)
Definition bagDashboard : Dashboard := set_form bagForm freshDashboard.

(** An order of the snapshot. *)
Definition order1 : Order :=
  {| order_id := "o1"; status := "pending";
     products := [ {| line_id := "a"; line_name := "A"; quantity := 2 |} ] |}.

(** The category dialog with a name typed in. *)
Definition shoesDialog : Dashboard :=
  setIsCategoryDialogOpen true (setNewCategoryName "  Shoes " freshDashboard).

(** A backend that numbers its documents in unary, and a store that
    holds one category, in capitals, and no style. *)
Definition unaryId (docs : list Category) : string :=
  foldr (fun _ id => String "i" id) "c" docs.

Definition womenOnly : Taxonomy :=
  {| categories := [ {| cat_id := "c"; cat_name := "WOMEN" |} ]; styles := [] |}.

(** ** Further parts of the page *)

(** The number shown on a product card: [salesCount[product.id] || 0]
    (line 482). *)
Definition displayedSales (orders : option (list Order)) (id : string) : Z :=
  or_zero (salesCount orders !! id).

(** *** Start of an upload ([handleImageUpload], lines 163-172) *)

(** The file chosen in the input; the page reads its name only. *)
Record File := { file_name : string }.

(** [`products/${Date.now()}-${file.name}`]: [now] is the integer that
    [Date.now()] returns, printed in decimal. *)
Definition storagePath (now : N) (file : File) : string :=
  "products/" +:+ pretty now +:+ "-" +:+ file_name file.

(** The handler up to the registration of the callbacks: the new state
    and the storage path of the upload it has started, if any.  [file] is
    [event.target.files?.[0]]. *)
Definition handleImageUpload (file : option File) (firebaseApp : bool) (now : N)
    (st : Dashboard) : Dashboard * option string :=
  match file with
  | Some f =>
      if negb firebaseApp then (st, None)
      else (setUploadedUrl None (setUploading true st), Some (storagePath now f))
  | None => (st, None)
  end.

(** What the uploader shows: the file input is [disabled={uploading}],
    the progress bar is rendered under [uploading &&], and the url with
    its copy button under [uploadedUrl && !uploading &&]. *)
Definition fileInputDisabled (st : Dashboard) : bool := uploading st.
Definition showsProgress (st : Dashboard) : bool := uploading st.
Definition shownUploadedUrl (st : Dashboard) : option string :=
  match uploadedUrl st with
  | Some u => if Js.truthy u && negb (uploading st) then Some u else None
  | None => None
  end.

(** Uploads completing one after the other. *)
Definition uploadsCompleted (urls : list string) (st : Dashboard) : Dashboard :=
  foldl (fun s u => uploadCompleted u s) st urls.

(** The four image fields of a form, in order. *)
Definition imageValues (f : ProductFormData) : list (option string) :=
  [imageUrl1 f; imageUrl2 f; imageUrl3 f; imageUrl4 f].

(** *** Sizes and colours of the form (lines 29-50, 404-435) *)

Definition PRESET_COLORS : list Color :=
  [ {| color_name := "Black"; hex := "#111827" |}; {| color_name := "White"; hex := "#FFFFFF" |};
    {| color_name := "Stone"; hex := "#A8A29E" |}; {| color_name := "Gray"; hex := "#6B7280" |};
    {| color_name := "Red"; hex := "#EF4444" |}; {| color_name := "Pink"; hex := "#EC4899" |};
    {| color_name := "Blue"; hex := "#3B82F6" |}; {| color_name := "Sky"; hex := "#0EA5E9" |};
    {| color_name := "Green"; hex := "#22C55E" |}; {| color_name := "Lime"; hex := "#84CC16" |};
    {| color_name := "Yellow"; hex := "#EAB308" |}; {| color_name := "Orange"; hex := "#F97316" |};
    {| color_name := "Brown"; hex := "#78350F" |}; {| color_name := "Beige"; hex := "#F5F5DC" |};
    {| color_name := "Purple"; hex := "#8B5CF6" |}; {| color_name := "Indigo"; hex := "#6366F1" |};
    {| color_name := "Sage"; hex := "#8F9779" |}; {| color_name := "Olive"; hex := "#556B2F" |};
    {| color_name := "Terracotta"; hex := "#E2725B" |}; {| color_name := "Ochre"; hex := "#CC7722" |};
    {| color_name := "Sand"; hex := "#C2B280" |}; {| color_name := "Taupe"; hex := "#483C32" |};
    {| color_name := "Charcoal"; hex := "#36454F" |}; {| color_name := "Slate"; hex := "#708090" |};
    {| color_name := "Navy"; hex := "#000080" |}; {| color_name := "Maroon"; hex := "#800000" |};
    {| color_name := "Forest"; hex := "#228B22" |}; {| color_name := "Zinc"; hex := "#B4B4B4" |};
    {| color_name := "Teal"; hex := "#008080" |}; {| color_name := "Emerald"; hex := "#50C878" |};
    {| color_name := "Crimson"; hex := "#DC143C" |}; {| color_name := "Amber"; hex := "#FFBF00" |};
    {| color_name := "Violet"; hex := "#8F00FF" |}; {| color_name := "Fuchsia"; hex := "#FF00FF" |};
    {| color_name := "Mint"; hex := "#98FF98" |}; {| color_name := "Mauve"; hex := "#E0B0FF" |} ].

Definition AVAILABLE_SIZES : list string := ["XS"; "S"; "M"; "L"; "XL"; "XXL"].

(** [field.value || []]; the value of an optional array field is [None]
    when [undefined]. *)
Definition or_nil {A : Type} (value : option (list A)) : list A :=
  match value with
  | Some l => l
  | None => []
  end.

(** [checked={field.value?.includes(size)}] *)
Definition sizeChecked (size : string) (value : option (list string)) : bool :=
  match value with
  | Some l => bool_decide (size ∈ l)
  | None => false
  end.

(** [onCheckedChange] of the checkbox of [size], given the new state [c]:
    [c ? [...(field.value || []), size]
       : (field.value || []).filter(v => v !== size)]. *)
Definition onSizeCheckedChange (size : string) (c : bool)
    (value : option (list string)) : list string :=
  if c then or_nil value ++ [size]
  else filter (fun v => v <> size) (or_nil value).

(** [field.value?.some(c => c.hex === color.hex)] *)
Definition isSelected (color : Color) (value : option (list Color)) : bool :=
  match value with
  | Some l => existsb (fun c => String.eqb (hex c) (hex color)) l
  | None => false
  end.

(** [onClick] of the button of [color]. *)
Definition onColorClick (color : Color) (value : option (list Color)) : list Color :=
  if isSelected color value
  then filter (fun c => hex c <> hex color) (or_nil value)
  else or_nil value ++ [color].

(** Clicks on colour buttons, one after the other. *)
Definition colorClicks (clicks : list Color) (value : option (list Color))
    : option (list Color) :=
  foldl (fun v c => Some (onColorClick c v)) value clicks.

(** The number of clicks on the button with the hex value of [color]. *)
Fixpoint clicksOn (color : Color) (clicks : list Color) : nat :=
  match clicks with
  | [] => 0
  | c :: r => (if String.eqb (hex c) (hex color) then 1 else 0) + clicksOn color r
  end.

(** *** Login ([handleLogin], lines 576-596) *)

(** The cells of [AdminDashboard] that the login form uses. *)
Record LoginState := {
  login_email : string;
  login_password : string;
  loginError : option string;
  isLoggingIn : bool
}.

(** How [signInWithEmailAndPassword] settles: it resolves, or it rejects
    with an error that has a code and a message. *)
Inductive SignInOutcome :=
| SignedIn
| SignInRejected (code message : string).

Definition notConfiguredMessage : string :=
  "Authentication service or admin email is not configured.".

Definition credentialsMessage : string :=
  "Login failed. Please check your credentials. The admin user may need to be created in the Firebase Console first.".

(** The [catch] clause. *)
Definition loginErrorOf (code message : string) : string :=
  if String.eqb code "auth/user-not-found" || String.eqb code "auth/invalid-credential"
     || String.eqb code "auth/wrong-password"
  then credentialsMessage
  else "Login failed: " +:+ message.

(** The state while the sign-in is awaited. *)
Definition loginPending (ls : LoginState) : LoginState :=
  {| login_email := login_email ls; login_password := login_password ls;
     loginError := None; isLoggingIn := true |}.

(** [handleLogin], run to its end: the final state and the credentials
    of the sign-in attempts made.  [auth] is [false] when the hook gives
    [null]; [signIn] says how the sign-in with given credentials settles. *)
Definition handleLogin (auth : bool) (ADMIN_EMAIL : option string)
    (signIn : string -> string -> SignInOutcome) (ls : LoginState)
    : LoginState * list (string * string) :=
  if negb auth || negb (truthy_opt ADMIN_EMAIL) then
    ({| login_email := login_email ls; login_password := login_password ls;
        loginError := Some notConfiguredMessage; isLoggingIn := isLoggingIn ls |}, [])
  else
    let pending := loginPending ls in
    let caught :=
      match signIn (login_email ls) (login_password ls) with
      | SignedIn => loginError pending
      | SignInRejected code message => Some (loginErrorOf code message)
      end in
    ({| login_email := login_email pending; login_password := login_password pending;
        loginError := caught; isLoggingIn := false |},
     [(login_email ls, login_password ls)]).

(** *** Writes reaching the taxonomy, and names typed one after the other *)

Definition applyWrites (newId : list Category -> string) (t : Taxonomy)
    (ws : list Write) : Taxonomy :=
  foldl (applyWrite newId) t ws.

(** The last non-empty string of a list, the empty string if none. *)
Definition lastTruthy (vs : list string) : string :=
  foldl (fun acc v => if Js.truthy v then v else acc) "" vs.

(** The class [[a-z0-9-]]. *)
Definition url_safe (c : ascii) : bool := is_az c || is_digit c || is_hyphen c.

(** No two neighbours in [s] are both in [cls]. *)
Fixpoint no_adjacent (cls : ascii -> bool) (s : string) : bool :=
  match s with
  | EmptyString => true
  | String c r => negb (cls c && starts_in cls r) && no_adjacent cls r
  end.

(** A stored product with five images, the second without a url. *)
Definition storedBag : Product :=
  {| product_id := "p1"; product_name := "Bag"; product_slug := "bag";
     product_description := "A bag"; product_category := "Bags";
     product_style := None; product_price := 1500; product_originalPrice := Null;
     product_images :=
       Some [ {| url := "https://img.example/1.png"; alt := "front"; hint := "bag" |};
              {| url := ""; alt := "none"; hint := "bag" |};
              {| url := "https://img.example/3.png"; alt := "back"; hint := "bag" |};
              {| url := "https://img.example/4.png"; alt := "side"; hint := "bag" |};
              {| url := "https://img.example/5.png"; alt := "top"; hint := "bag" |} ];
     product_sizes := None; product_availableColors := None;
     product_isFeatured := None |}.

(** * Properties *)

(** ** String primitives *)

Section JsStrings.

Import Js.

Lemma append_cons c (s t : string) : String c s +:+ t = String c (s +:+ t).
Proof. reflexivity. Qed.

Lemma append_empty (t : string) : "" +:+ t = t.
Proof. reflexivity. Qed.

Lemma take_drop_run cls s : s = take_run cls s +:+ drop_run cls s.
Proof.
  induction s as [|c r IH]; simpl; [reflexivity|].
  destruct (cls c); [rewrite append_cons; f_equal; exact IH | reflexivity].
Qed.

Lemma all_in_take_run cls s : all_in cls (take_run cls s) = true.
Proof.
  induction s as [|c r IH]; simpl; [reflexivity|].
  destruct (cls c) eqn:E; simpl; [rewrite E; exact IH | reflexivity].
Qed.

Lemma starts_in_drop_run cls s : starts_in cls (drop_run cls s) = false.
Proof.
  induction s as [|c r IH]; simpl; [reflexivity|].
  destruct (cls c) eqn:E; simpl; [exact IH | exact E].
Qed.

Lemma length_drop_run cls s :
  (String.length (drop_run cls s) <= String.length s)%nat.
Proof.
  induction s as [|c r IH]; simpl; [lia|].
  destruct (cls c); simpl; lia.
Qed.

(** A run and what follows it are determined by their concatenation. *)
Lemma run_split_unique cls run1 run2 s1 s2 :
  all_in cls run1 = true -> all_in cls run2 = true ->
  starts_in cls s1 = false -> starts_in cls s2 = false ->
  run1 +:+ s1 = run2 +:+ s2 -> s1 = s2.
Proof.
  revert run2.
  induction run1 as [|a r1 IH]; intros [|b r2] A1 A2 S1 S2 E;
    rewrite ?append_cons, ?append_empty in E; simpl in *.
  - exact E.
  - subst s1. simpl in S1. apply andb_prop in A2 as [Hb _]. congruence.
  - subst s2. simpl in S2. apply andb_prop in A1 as [Ha _]. congruence.
  - injection E as -> E.
    apply andb_prop in A1 as [_ A1]. apply andb_prop in A2 as [_ A2].
    eauto.
Qed.

(** The greedy match of [replace_plus] resumes behind the run. *)
Lemma replace_plus_cons cls rep c r :
  replace_plus cls rep (String c r) =
  if cls c then rep +:+ replace_plus cls rep (drop_run cls r)
  else String c (replace_plus cls rep r).
Proof.
  simpl. destruct (cls c); [|reflexivity]. f_equal.
  induction r as [|d u IH]; simpl; [reflexivity|].
  destruct (cls d) eqn:E; [exact IH | simpl; rewrite E; reflexivity].
Qed.

Lemma replace_plus_Collapsed cls h s :
  Collapsed cls h s (replace_plus cls (String h EmptyString) s).
Proof.
  remember (String.length s) as n eqn:Hn.
  assert (Hle : (String.length s <= n)%nat) by lia. clear Hn.
  revert s Hle. induction n as [|n IH]; intros [|c r] Hle; simpl in Hle;
    try lia; try constructor.
  rewrite replace_plus_cons. destruct (cls c) eqn:E.
  - rewrite append_cons, append_empty, (take_drop_run cls r) at 1.
    apply Collapsed_run; auto using all_in_take_run, starts_in_drop_run.
    apply IH. pose proof (length_drop_run cls r). lia.
  - constructor; [exact E|]. apply IH. lia.
Qed.

Lemma Collapsed_functional cls h s t1 t2 :
  Collapsed cls h s t1 -> Collapsed cls h s t2 -> t1 = t2.
Proof.
  intros H1. revert t2.
  induction H1 as [|c s t Hc H1 IH|c run s t Hc Hr Hs H1 IH]; intros t2 H2.
  - inversion H2; reflexivity.
  - inversion H2; subst; [f_equal; auto | congruence].
  - inversion H2 as [| |c' run' s' t' Hc' Hr' Hs' H2' [Ec Es]];
      subst; [congruence|].
    f_equal. apply IH.
    assert (s' = s) as <- by exact (run_split_unique cls run' run s' s Hr' Hr Hs' Hs Es).
    exact H2'.
Qed.

Lemma Collapsed_iff cls h s t :
  Collapsed cls h s t <-> t = replace_plus cls (String h EmptyString) s.
Proof.
  split.
  - intros H. eapply Collapsed_functional; [exact H | apply replace_plus_Collapsed].
  - intros ->. apply replace_plus_Collapsed.
Qed.

Lemma is_amp_eqb c : is_amp c = Ascii.eqb c "&".
Proof. destruct c as [[] [] [] [] [] [] [] []]; reflexivity. Qed.

Lemma replace_amp_spec s : replace_class is_amp "and" s = spec_expand_amp s.
Proof.
  induction s as [|c r IH]; simpl; [reflexivity|].
  rewrite is_amp_eqb, IH. destruct (Ascii.eqb c "&"); reflexivity.
Qed.

Lemma replace_outside_spec keep s :
  replace_class (fun c => negb (keep c)) "" s = spec_keep keep s.
Proof.
  induction s as [|c r IH]; simpl; [reflexivity|].
  rewrite IH. destruct (keep c); reflexivity.
Qed.

End JsStrings.

(** ** Slug derivation *)

Example generatedSlug_runs :
  generatedSlug "  A  --  B " = "a-b" /\
  generatedSlug "Tops & Tees" = "tops-and-tees" /\
  generatedSlug "! x" = "-x" /\
  generatedSlug "" = "".
Proof. repeat split; reflexivity. Qed.

(** C1. The slug is a function of the name alone: the relation that the
    specification describes (lower-case, trim, [&] to [and], keep only
    [a-z0-9\s-], each whitespace run to one hyphen, each hyphen run to
    one hyphen) holds between a name and a slug exactly when the slug is
    the one the code computes; and the slug of "Men & Women's Bags!" is
    "men-and-womens-bags". *)
Theorem slug_derivation :
  (forall name slug : string, SlugSpec name slug <-> slug = generatedSlug name) /\
  generatedSlug "Men & Women's Bags!" = "men-and-womens-bags".
Proof.
  split; [|reflexivity].
  intros name slug. unfold SlugSpec, generatedSlug.
  change outside_slug_class with (fun c => negb (slug_class c)).
  rewrite replace_amp_spec, replace_outside_spec.
  split.
  - intros (spaced & H1 & H2).
    apply Collapsed_iff in H1. apply Collapsed_iff in H2. subst. reflexivity.
  - intros ->. eexists. split; apply Collapsed_iff; reflexivity.
Qed.

(** ** Sales tally *)

Section SalesTally.

Implicit Types (counts : gmap string Z) (ls : list OrderLine) (os : list Order).

Lemma or_zero_Some (n : Z) : or_zero (Some n) = n.
Proof. simpl. destruct (Z.eqb_spec n 0); congruence. Qed.

Lemma sold_absent id ls : id ∉ map line_id ls -> sold id ls = 0%Z.
Proof.
  induction ls as [|l r IH]; simpl; [reflexivity|].
  rewrite not_elem_of_cons. intros [Hne Hr].
  destruct (String.eqb_spec (line_id l) id); [congruence|]. rewrite IH by exact Hr. lia.
Qed.

(** The orders are tallied line by line. *)
Lemma tally_orders_lines counts os :
  foldl tally_order counts os = foldl tally_line counts (all_lines os).
Proof.
  revert counts. induction os as [|o r IH]; intros counts; [reflexivity|].
  unfold all_lines. simpl. rewrite foldl_app. apply IH.
Qed.

(** What the loop leaves under a key: the earlier count, read through
    [|| 0], plus the quantities of the lines with that id, if there is
    one; the earlier entry otherwise. *)
Lemma tally_lines_lookup ls counts (k : string) :
  foldl tally_line counts ls !! k =
  if decide (k ∈ map line_id ls)
  then Some (or_zero (counts !! k) + sold k ls)%Z
  else counts !! k.
Proof.
  revert counts. induction ls as [|l r IH]; intros counts.
  - simpl foldl. case_decide as Hin; [|reflexivity].
    apply elem_of_nil in Hin. contradiction.
  - change (foldl tally_line counts (l :: r))
      with (foldl tally_line (tally_line counts l) r).
    rewrite IH. unfold tally_line.
    change (map line_id (l :: r)) with (line_id l :: map line_id r).
    change (sold k (l :: r))
      with ((if String.eqb (line_id l) k then quantity l else 0) + sold k r)%Z.
    destruct (String.eqb_spec (line_id l) k) as [->|Hne].
    + rewrite lookup_insert_eq, or_zero_Some.
      rewrite (decide_True (P := k ∈ k :: map line_id r)) by (apply elem_of_cons; left; reflexivity).
      case_decide as Hin.
      * f_equal; lia.
      * rewrite (sold_absent k r Hin). f_equal; lia.
    + rewrite lookup_insert_ne by exact Hne.
      case_decide as Hin.
      * rewrite decide_True by (apply elem_of_cons; right; exact Hin).
        f_equal; lia.
      * rewrite decide_False; [reflexivity|].
        rewrite not_elem_of_cons. split; [congruence | exact Hin].
Qed.

End SalesTally.

(** C3. The tally is a function of the order snapshot: under every product
    id that occurs in a line of some order it holds the sum of the
    quantities of the lines with that id, and it has no other key; the two
    orders of the specification give [{a: 3, b: 5}], and no orders (or no
    snapshot) give the empty map. *)
Theorem sales_tally :
  (forall (os : list Order) (k : string),
     salesCount (Some os) !! k =
     if decide (k ∈ map line_id (all_lines os))
     then Some (sold k (all_lines os)) else None) /\
  salesCount
    (Some [ {| order_id := "o1"; status := "pending";
               products := [ {| line_id := "a"; line_name := "A"; quantity := 2 |} ] |};
            {| order_id := "o2"; status := "pending";
               products := [ {| line_id := "a"; line_name := "A"; quantity := 1 |};
                             {| line_id := "b"; line_name := "B"; quantity := 5 |} ] |} ])
  = <["a" := 3%Z]> (<["b" := 5%Z]> ∅) /\
  salesCount (Some []) = ∅ /\
  salesCount None = ∅.
Proof.
  split; [|split; [|split; reflexivity]].
  - intros os k. unfold salesCount.
    rewrite tally_orders_lines, tally_lines_lookup, lookup_empty. reflexivity.
  - apply map_eq. intros k. unfold salesCount.
    rewrite tally_orders_lines, tally_lines_lookup, lookup_empty.
    destruct (decide (k = "a")) as [->|Ha]; [reflexivity|].
    destruct (decide (k = "b")) as [->|Hb]; [reflexivity|].
    rewrite lookup_insert_ne, lookup_insert_ne, lookup_empty by congruence.
    rewrite decide_False; [reflexivity|].
    simpl. rewrite !not_elem_of_cons. repeat split; try congruence.
    apply not_elem_of_nil.
Qed.

(** ** Taxonomy seeding *)

Section Seeding.

Variable newId : list Category -> string.

Implicit Types (docs : list Category) (defaults ns : list string) (t : Taxonomy).

Lemma seedCollection_missing col defaults docs :
  seedCollection col defaults docs =
  (fun n => addDocument col (NameData n)) <$> missing defaults docs.
Proof.
  unfold seedCollection, missing. f_equal.
  apply list_filter_iff. intros n. unfold existingNames, lowerNames.
  rewrite elem_of_list_to_set. reflexivity.
Qed.

Lemma seedWrites_missing t :
  seedWrites t =
  (addCategory <$> missing defaultCategories (categories t)) ++
  (addStyle <$> missing defaultStyles (styles t)).
Proof.
  unfold seedWrites, seedEffect. simpl. rewrite !seedCollection_missing. reflexivity.
Qed.

Lemma elem_of_missing defaults docs (n : string) :
  n ∈ missing defaults docs <->
  n ∈ defaults /\
  (forall c, c ∈ docs -> Js.toLowerCase (cat_name c) <> Js.toLowerCase n).
Proof.
  unfold missing, lowerNames. rewrite list_elem_of_filter, list_elem_of_fmap.
  split.
  - intros [Hn Hd]. split; [exact Hd|]. intros c Hc E. apply Hn. exists c. auto.
  - intros [Hd Hn]. split; [|exact Hd]. intros (c & E & Hc). apply (Hn c Hc). auto.
Qed.

Lemma missing_nil_iff defaults docs :
  missing defaults docs = [] <->
  (forall n : string, n ∈ defaults -> Js.toLowerCase n ∈ lowerNames docs).
Proof.
  unfold missing. split.
  - intros E n Hn. destruct (decide (Js.toLowerCase n ∈ lowerNames docs)) as [|Hno]; [assumption|].
    exfalso. exact (filter_nil_not_elem_of _ _ n E Hno Hn).
  - intros H. induction defaults as [|d r IH]; [reflexivity|].
    rewrite filter_cons. rewrite decide_False.
    + apply IH. intros n Hn. apply H. apply elem_of_cons. right. exact Hn.
    + intros Hno. apply Hno. apply H. apply elem_of_cons. left. reflexivity.
Qed.

Lemma NoDup_lower_missing defaults docs :
  NoDup (Js.toLowerCase <$> defaults) ->
  NoDup (Js.toLowerCase <$> missing defaults docs).
Proof using Type.
  unfold missing. induction defaults as [|d r IH]; intros Hnd; [exact Hnd|].
  rewrite fmap_cons in Hnd. apply NoDup_cons in Hnd as [Hd Hr].
  rewrite filter_cons.
  destruct (decide (Js.toLowerCase d ∉ lowerNames docs)) as [Hk|Hk];
    [|exact (IH Hr)].
  rewrite fmap_cons. apply NoDup_cons. split; [|exact (IH Hr)].
  rewrite list_elem_of_fmap. rewrite list_elem_of_fmap in Hd.
  intros (x & E & Hx). apply Hd.
  exists x. split; [exact E|]. apply list_elem_of_filter in Hx as [_ Hx]. exact Hx.
Qed.

Lemma NoDup_lower_defaults :
  NoDup (Js.toLowerCase <$> defaultCategories) /\
  NoDup (Js.toLowerCase <$> defaultStyles).
Proof. split; apply (bool_decide_unpack _); vm_compute; reflexivity. Qed.

(** Adding names one after the other appends one document per name. *)
Lemma addNamed_all ns docs :
  exists new,
    foldl (fun d n => addNamed newId n d) docs ns = docs ++ new /\ names new = ns.
Proof.
  revert docs. induction ns as [|n r IH]; intros docs; simpl.
  - exists []. split; [symmetry; apply app_nil_r | reflexivity].
  - destruct (IH (addNamed newId n docs)) as (new & E & Hn).
    exists ({| cat_id := newId docs; cat_name := n |} :: new).
    split; [|unfold names in *; rewrite fmap_cons; simpl; congruence].
    rewrite E. unfold addNamed. rewrite <- app_assoc. reflexivity.
Qed.

Lemma apply_category_writes ns t :
  foldl (applyWrite newId) t (addCategory <$> ns) =
  {| categories := foldl (fun d n => addNamed newId n d) (categories t) ns;
     styles := styles t |}.
Proof.
  revert t. induction ns as [|n r IH]; intros [cs ss]; [reflexivity|].
  rewrite fmap_cons. simpl foldl at 1. rewrite IH. reflexivity.
Qed.

Lemma apply_style_writes ns t :
  foldl (applyWrite newId) t (addStyle <$> ns) =
  {| categories := categories t;
     styles := foldl (fun d n => addNamed newId n d) (styles t) ns |}.
Proof.
  revert t. induction ns as [|n r IH]; intros [cs ss]; [reflexivity|].
  rewrite fmap_cons. simpl foldl at 1. rewrite IH. reflexivity.
Qed.

Lemma seed_collections t :
  seed newId t =
  {| categories :=
       foldl (fun d n => addNamed newId n d) (categories t)
         (missing defaultCategories (categories t));
     styles :=
       foldl (fun d n => addNamed newId n d) (styles t)
         (missing defaultStyles (styles t)) |}.
Proof.
  unfold seed. rewrite seedWrites_missing, foldl_app.
  rewrite apply_category_writes, apply_style_writes. reflexivity.
Qed.

(** Once the missing defaults have been added, none is missing. *)
Lemma missing_after defaults docs new :
  names new = missing defaults docs -> missing defaults (docs ++ new) = [].
Proof.
  intros Hn. apply missing_nil_iff. intros n Hd.
  unfold lowerNames. rewrite fmap_app, elem_of_app.
  destruct (decide (Js.toLowerCase n ∈ lowerNames docs)) as [Hin|Hno]; [left; exact Hin|].
  right. assert (Hm : n ∈ names new).
  { rewrite Hn. unfold missing. apply list_elem_of_filter. auto. }
  unfold names in Hm. apply list_elem_of_fmap in Hm as (c & -> & Hc).
  apply list_elem_of_fmap. exists c. auto.
Qed.

Lemma NoDup_lower_after defaults docs new :
  NoDup (Js.toLowerCase <$> defaults) ->
  names new = missing defaults docs ->
  NoDup (lowerNames docs) -> NoDup (lowerNames (docs ++ new)).
Proof using Type.
  intros Hd Hn Hnd. unfold lowerNames. rewrite fmap_app. apply NoDup_app.
  assert (E : (fun c => Js.toLowerCase (cat_name c)) <$> new
              = Js.toLowerCase <$> missing defaults docs).
  { rewrite <- Hn. unfold names. rewrite <- list_fmap_compose. reflexivity. }
  rewrite E. split; [exact Hnd|]. split; [|apply NoDup_lower_missing; exact Hd].
  intros x Hx Hx'. apply list_elem_of_fmap in Hx' as (n & -> & Hm).
  unfold missing in Hm. apply list_elem_of_filter in Hm as [Hno _]. exact (Hno Hx).
Qed.

End Seeding.

(** C4. Seeding a loaded store, whatever ids the backend hands out:
    the writes are additions only, one for each default category and
    style whose lower-case form is the lower-case form of no existing
    name; there is no write exactly when no default is missing; the
    documents of the store stay as they are, in place, and the added ones
    follow them; the added names differ from each other and from the
    existing ones when case is ignored, so a store without duplicates
    ignoring case stays so; and a second pass over the seeded store writes
    nothing and leaves it as the first pass left it. *)
Theorem seeding_idempotent_and_non_destructive
    (newId : list Category -> string) (t : Taxonomy) :
  seedWrites t =
    (addCategory <$> missing defaultCategories (categories t)) ++
    (addStyle <$> missing defaultStyles (styles t)) /\
  (forall n : string,
     n ∈ missing defaultCategories (categories t) <->
     n ∈ defaultCategories /\
     forall c, c ∈ categories t -> Js.toLowerCase (cat_name c) <> Js.toLowerCase n) /\
  (forall n : string,
     n ∈ missing defaultStyles (styles t) <->
     n ∈ defaultStyles /\
     forall c, c ∈ styles t -> Js.toLowerCase (cat_name c) <> Js.toLowerCase n) /\
  (seedWrites t = [] <->
     (forall n : string, n ∈ defaultCategories ->
        Js.toLowerCase n ∈ lowerNames (categories t)) /\
     (forall n : string, n ∈ defaultStyles ->
        Js.toLowerCase n ∈ lowerNames (styles t))) /\
  (exists new,
     categories (seed newId t) = categories t ++ new /\
     names new = missing defaultCategories (categories t)) /\
  (exists new,
     styles (seed newId t) = styles t ++ new /\
     names new = missing defaultStyles (styles t)) /\
  NoDup (Js.toLowerCase <$> missing defaultCategories (categories t)) /\
  NoDup (Js.toLowerCase <$> missing defaultStyles (styles t)) /\
  (NoDup (lowerNames (categories t)) -> NoDup (lowerNames (categories (seed newId t)))) /\
  (NoDup (lowerNames (styles t)) -> NoDup (lowerNames (styles (seed newId t)))) /\
  seedWrites (seed newId t) = [] /\
  seed newId (seed newId t) = seed newId t.
Proof.
  destruct NoDup_lower_defaults as [Hdc Hds].
  destruct (addNamed_all newId (missing defaultCategories (categories t)) (categories t))
    as (newc & Ec & Hc).
  destruct (addNamed_all newId (missing defaultStyles (styles t)) (styles t))
    as (news & Es & Hs).
  assert (Hseed : seed newId t =
                  {| categories := categories t ++ newc; styles := styles t ++ news |}).
  { rewrite seed_collections, Ec, Es. reflexivity. }
  assert (Hnone : seedWrites (seed newId t) = []).
  { rewrite seedWrites_missing, Hseed. simpl.
    rewrite (missing_after _ _ _ Hc), (missing_after _ _ _ Hs). reflexivity. }
  split; [apply seedWrites_missing|].
  split; [intros n; apply elem_of_missing|].
  split; [intros n; apply elem_of_missing|].
  split.
  { rewrite seedWrites_missing, <- !missing_nil_iff. split.
    - intros E. apply app_eq_nil in E as [E1 E2].
      apply fmap_nil_inv in E1. apply fmap_nil_inv in E2. auto.
    - intros [-> ->]. reflexivity. }
  split; [exists newc; rewrite Hseed; auto|].
  split; [exists news; rewrite Hseed; auto|].
  split; [apply NoDup_lower_missing; exact Hdc|].
  split; [apply NoDup_lower_missing; exact Hds|].
  split; [rewrite Hseed; apply (NoDup_lower_after _ _ _ Hdc Hc)|].
  split; [rewrite Hseed; apply (NoDup_lower_after _ _ _ Hds Hs)|].
  split; [exact Hnone|].
  unfold seed at 1. rewrite Hnone. reflexivity.
Qed.

Lemma seeding_idempotent_and_non_destructive_witness :
  NoDup (lowerNames (categories womenOnly)) /\
  NoDup (lowerNames (categories (seed unaryId womenOnly))) /\
  names (categories (seed unaryId womenOnly)) = ["WOMEN"; "Men"; "Unisex"; "Bags"] /\
  names (styles (seed unaryId womenOnly)) = defaultStyles /\
  seed unaryId (seed unaryId womenOnly) = seed unaryId womenOnly.
Proof.
  assert (Hnd : NoDup (lowerNames (categories womenOnly))).
  { apply (bool_decide_unpack _). vm_compute. reflexivity. }
  destruct (seeding_idempotent_and_non_destructive unaryId womenOnly)
    as (_ & _ & _ & _ & _ & _ & _ & _ & Hkeep & _ & _ & Hidem).
  split; [exact Hnd|]. split; [exact (Hkeep Hnd)|].
  split; [vm_compute; reflexivity|]. split; [vm_compute; reflexivity | exact Hidem].
Defined.

(** ** Slug effect *)

Section SlugEffect.

Implicit Types (st : Dashboard) (v : string) (p : Product).

Lemma slugEffect_editing st :
  is_Some (editingProduct st) -> slugEffect st = st.
Proof.
  intros [p Hp]. unfold slugEffect. rewrite Hp. reflexivity.
Qed.

Lemma slugEffect_creating st :
  editingProduct st = None ->
  slug (form (slugEffect st)) =
  if Js.truthy (name (form st)) then generatedSlug (name (form st))
  else slug (form st).
Proof.
  intros Hp. unfold slugEffect. rewrite Hp. simpl.
  destruct (Js.truthy (name (form st))); reflexivity.
Qed.

Lemma changeName_editing v st :
  is_Some (editingProduct st) ->
  editingProduct (changeName v st) = editingProduct st /\
  slug (form (changeName v st)) = slug (form st).
Proof.
  intros Hp. unfold changeName.
  destruct (String.eqb v (name (form st))); [split; reflexivity|].
  rewrite slugEffect_editing by exact Hp. split; reflexivity.
Qed.

Lemma changeNames_editing vs st :
  is_Some (editingProduct st) ->
  slug (form (changeNames vs st)) = slug (form st).
Proof.
  revert st. induction vs as [|v r IH]; intros st Hp; [reflexivity|].
  unfold changeNames in *. simpl.
  destruct (changeName_editing v st Hp) as [He Hs].
  rewrite IH by (rewrite He; exact Hp). exact Hs.
Qed.

Lemma openEditDialog_slug p st :
  editingProduct (openEditDialog p st) = Some p /\
  slug (form (openEditDialog p st)) = product_slug p.
Proof.
  unfold openEditDialog.
  rewrite (slugEffect_editing (setIsDialogOpen _ _)) by (simpl; eauto).
  rewrite slugEffect_editing by (simpl; eauto).
  split; reflexivity.
Qed.

End SlugEffect.

(** C2, where the code departs from the claim: with no edit target, the
    name "a" gives the slug "a"; when the name is then cleared, the slug
    is not recomputed from the (empty) name but stays "a". *)
Lemma slug_kept_when_name_cleared :
  editingProduct (changeName "a" freshDashboard) = None /\
  name (form (changeName "a" freshDashboard)) <> "" /\
  slug (form (changeName "" (changeName "a" freshDashboard))) = "a" /\
  slug (form (changeName "" (changeName "a" freshDashboard))) <> generatedSlug "".
Proof. repeat split; try reflexivity; discriminate. Qed.

(** C2, as the code has it.  When the name field changes to [v]: with no
    edit target, the slug becomes the slug derived from [v] if [v] is not
    empty, and is left as it was if [v] is empty; with an edit target the
    slug is left as it was.  Moreover, after an edit target has been
    opened, the slug is the stored slug of the target, whatever edits of
    the name follow. *)
Theorem slug_recomputed_only_when_creating
    (st : Dashboard) (v : string) (Hchange : v <> name (form st)) :
  (editingProduct st = None -> v <> "" ->
     slug (form (changeName v st)) = generatedSlug v) /\
  (editingProduct st = None -> v = "" ->
     slug (form (changeName v st)) = slug (form st)) /\
  (is_Some (editingProduct st) ->
     slug (form (changeName v st)) = slug (form st)) /\
  (forall (p : Product) (vs : list string),
     slug (form (changeNames vs (openEditDialog p st))) = product_slug p).
Proof.
  assert (E : changeName v st = slugEffect (set_form (setName v (form st)) st)).
  { unfold changeName. destruct (String.eqb_spec v (name (form st))); [contradiction | reflexivity]. }
  repeat split.
  - intros Hnone Hv. rewrite E, slugEffect_creating by exact Hnone. simpl.
    destruct v; [contradiction | reflexivity].
  - intros Hnone ->. rewrite E, slugEffect_creating by exact Hnone. reflexivity.
  - intros Hp. apply changeName_editing. exact Hp.
  - intros p vs. destruct (openEditDialog_slug p st) as [He Hs].
    rewrite changeNames_editing by (rewrite He; eauto). exact Hs.
Qed.

Lemma slug_recomputed_only_when_creating_witness :
  "Men & Women" <> name (form freshDashboard) /\
  slug (form (changeName "Men & Women" freshDashboard)) = "men-and-women".
Proof.
  split; [discriminate|].
  refine (proj1 (slug_recomputed_only_when_creating freshDashboard "Men & Women" _) _ _);
    [discriminate | reflexivity | discriminate].
Defined.

(** ** Submit *)

Section Submit.

Implicit Types (data : ProductFormData) (st : Dashboard).

Lemma filled_filter (urls : list (option string)) :
  filled urls = filter (fun u : string => u <> "") (or_empty <$> urls).
Proof.
  induction urls as [|u r IH]; [reflexivity|].
  rewrite fmap_cons, filter_cons.
  destruct u as [[|c s]|]; cbn [or_empty].
  - rewrite decide_False by (intros H; apply H; reflexivity). exact IH.
  - rewrite decide_True by discriminate.
    change (filled (Some (String c s) :: r)) with (String c s :: filled r).
    f_equal. exact IH.
  - rewrite decide_False by (intros H; apply H; reflexivity). exact IH.
Qed.

Lemma filled_all (urls : list (option string)) :
  forallb truthy_opt urls = true -> filled urls = or_empty <$> urls.
Proof.
  induction urls as [|u r IH]; [reflexivity|].
  intros H. simpl in H. apply andb_prop in H as [Hu Hr]. rewrite fmap_cons.
  destruct u as [[|c s]|]; [discriminate | | discriminate].
  cbn [or_empty]. change (filled (Some (String c s) :: r)) with (String c s :: filled r).
  f_equal. exact (IH Hr).
Qed.

Lemma url_of_images (n : string) (urls : list string) :
  url <$> ((fun u => {| url := u; alt := n; hint := "product image" |}) <$> urls) = urls.
Proof.
  induction urls as [|u r IH]; [reflexivity|].
  rewrite !fmap_cons. cbn [url]. f_equal. exact IH.
Qed.

Lemma string_or_null_None (v : option string) :
  string_or_null v = None <-> v = None \/ v = Some "".
Proof.
  destruct v as [[|c s]|]; simpl; split; auto; try discriminate.
  intros [H|H]; discriminate.
Qed.

Lemma string_or_null_Some (v : option string) (s : string) :
  string_or_null v = Some s <-> v = Some s /\ s <> "".
Proof.
  destruct v as [[|c r]|]; simpl; split; try discriminate.
  - intros [H Hs]. congruence.
  - intros H. injection H as <-. split; [reflexivity | discriminate].
  - intros [H _]. exact H.
  - intros [H _]. discriminate.
Qed.

End Submit.

(** C5. With the Firestore handle at hand, [onSubmit] sends one write, an
    update of the edit target or else an addition, and in the product it
    writes: the image urls are the non-empty ones among the four url
    fields, in the order of the fields (all four, as they are, when none
    is empty); every image has the product name as its alt text; [style]
    is [null] exactly when the field is undefined or the empty string and
    is the field's value otherwise; and [originalPrice] is [null] when the
    field is [null] or undefined. *)
Theorem submit_builds_record
    (data : ProductFormData) (st : Dashboard) (Hfs : firestore st = true) :
  exists d : ProductDoc,
    snd (onSubmit data st) =
      [match editingProduct st with
       | Some p => updateDocument "products" (product_id p) (ProductData d)
       | None => addDocument "products" (ProductData d)
       end] /\
    url <$> images d =
      filter (fun u : string => u <> "")
        (or_empty <$> [imageUrl1 data; imageUrl2 data; imageUrl3 data; imageUrl4 data]) /\
    (forallb truthy_opt [imageUrl1 data; imageUrl2 data; imageUrl3 data; imageUrl4 data] = true ->
       url <$> images d =
         or_empty <$> [imageUrl1 data; imageUrl2 data; imageUrl3 data; imageUrl4 data] /\
       length (images d) = 4%nat) /\
    Forall (fun i => alt i = name data) (images d) /\
    (doc_style d = None <-> style data = None \/ style data = Some "") /\
    (forall s : string, doc_style d = Some s <-> style data = Some s /\ s <> "") /\
    (originalPrice data = Null \/ originalPrice data = Undefined ->
       doc_originalPrice d = None).
Proof.
  assert (Himg : forall d0, images d0 = images (productData data) ->
            url <$> images d0 = filled [imageUrl1 data; imageUrl2 data; imageUrl3 data; imageUrl4 data]).
  { intros d0 ->. unfold productData. cbn [images]. apply url_of_images. }
  exists (match editingProduct st with
          | Some _ => productData data
          | None => withCreatedAt (productData data)
          end).
  assert (Hd : forall P : ProductDoc -> Prop,
            P (productData data) -> P (withCreatedAt (productData data)) ->
            P (match editingProduct st with
               | Some _ => productData data
               | None => withCreatedAt (productData data)
               end)).
  { intros P H1 H2. destruct (editingProduct st); assumption. }
  split; [unfold onSubmit; rewrite Hfs; destruct (editingProduct st); reflexivity|].
  split; [apply Hd; (rewrite Himg by reflexivity); apply filled_filter|].
  split.
  { intros Hall. split.
    - apply Hd; (rewrite Himg by reflexivity); apply (filled_all _ Hall).
    - rewrite <- (length_fmap url).
      replace (url <$> images _) with
        (or_empty <$> [imageUrl1 data; imageUrl2 data; imageUrl3 data; imageUrl4 data]);
        [reflexivity|].
      symmetry. apply Hd; (rewrite Himg by reflexivity); apply (filled_all _ Hall). }
  split.
  { apply Hd; cbn [images withCreatedAt productData];
      apply Forall_fmap, Forall_forall; intros; reflexivity. }
  split; [apply Hd; apply string_or_null_None|].
  split; [intros s; apply Hd; apply string_or_null_Some|].
  intros [H|H]; apply Hd; cbn [doc_originalPrice withCreatedAt productData];
    rewrite H; reflexivity.
Qed.

Lemma submit_builds_record_witness :
  firestore bagDashboard = true /\
  exists d : ProductDoc,
    snd (onSubmit bagForm bagDashboard) = [addDocument "products" (ProductData d)] /\
    url <$> images d = ["https://img.example/1.png"; "https://img.example/3.png"] /\
    doc_style d = None /\
    doc_originalPrice d = None.
Proof.
  split; [reflexivity|].
  destruct (submit_builds_record bagForm bagDashboard eq_refl)
    as (d & Hw & Hu & _ & _ & Hs & _ & Hp).
  exists d. split; [exact Hw|]. split; [exact Hu|].
  split; [apply Hs; right; reflexivity | apply Hp; left; reflexivity].
Defined.

(** ** Upload callbacks *)

Section Upload.

Implicit Types (st : Dashboard) (f : ProductFormData) (field g : ImageField).

Lemma getValues_setValue_eq field v f : getValues field (setValue field v f) = Some v.
Proof. destruct field; reflexivity. Qed.

Lemma getValues_setValue_ne field g v f :
  g <> field -> getValues g (setValue field v f) = getValues g f.
Proof. destruct field, g; intros H; try reflexivity; contradiction. Qed.

Lemma other_fields_setValue field v f : other_fields (setValue field v f) = other_fields f.
Proof. reflexivity. Qed.

(** [find] returns the first field, in the scan order, that holds no
    value. *)
Lemma find_first_empty f field :
  truthy_opt (getValues field f) = false ->
  (forall g, (field_index g < field_index field)%nat -> truthy_opt (getValues g f) = true) ->
  List.find (fun x => negb (truthy_opt (getValues x f))) imageFields = Some field.
Proof.
  intros He Hb.
  pose proof (Hb ImageUrl1) as H1. pose proof (Hb ImageUrl2) as H2.
  pose proof (Hb ImageUrl3) as H3. clear Hb. unfold imageFields.
  destruct field; simpl in He, H1, H2, H3 |- *;
    rewrite ?H1, ?H2, ?H3 by lia; simpl; rewrite He; reflexivity.
Qed.

Lemma find_none_empty f :
  (forall g, truthy_opt (getValues g f) = true) ->
  List.find (fun x => negb (truthy_opt (getValues x f))) imageFields = None.
Proof.
  intros H.
  pose proof (H ImageUrl1) as H1. pose proof (H ImageUrl2) as H2.
  pose proof (H ImageUrl3) as H3. pose proof (H ImageUrl4) as H4.
  unfold imageFields. simpl in H1, H2, H3, H4 |- *.
  rewrite H1, H2, H3, H4. reflexivity.
Qed.

End Upload.

(** C6. When an upload has completed with the url [downloadURL]: the
    upload is no longer in progress and the url is shown for copying; if
    some image field holds no value, then the first such field in the
    order 1 to 4 holds the url afterwards and the other three are as
    before; if all four hold a value the form is as before; in every case
    the other fields of the form are as before. *)
Theorem upload_fills_first_empty_field (downloadURL : string) (st : Dashboard) :
  uploading (uploadCompleted downloadURL st) = false /\
  uploadedUrl (uploadCompleted downloadURL st) = Some downloadURL /\
  other_fields (form (uploadCompleted downloadURL st)) = other_fields (form st) /\
  (forall field : ImageField,
     truthy_opt (getValues field (form st)) = false ->
     (forall g, (field_index g < field_index field)%nat ->
        truthy_opt (getValues g (form st)) = true) ->
     getValues field (form (uploadCompleted downloadURL st)) = Some downloadURL /\
     forall g, g <> field ->
       getValues g (form (uploadCompleted downloadURL st)) = getValues g (form st)) /\
  ((forall g, truthy_opt (getValues g (form st)) = true) ->
     form (uploadCompleted downloadURL st) = form st).
Proof.
  unfold uploadCompleted. cbn [form setUploading setUploadedUrl].
  split; [destruct (List.find _ _); reflexivity|].
  split; [destruct (List.find _ _); reflexivity|].
  split; [destruct (List.find _ _); reflexivity|].
  split.
  - intros field Hempty Hbefore.
    rewrite (find_first_empty _ _ Hempty Hbefore). cbn [form set_form].
    split; [apply getValues_setValue_eq|].
    intros g Hg. apply getValues_setValue_ne. exact Hg.
  - intros Hall. rewrite (find_none_empty _ Hall). reflexivity.
Qed.

Lemma upload_fills_first_empty_field_witness :
  truthy_opt (getValues ImageUrl2 (form bagDashboard)) = false /\
  getValues ImageUrl2 (form (uploadCompleted "https://img.example/2.png" bagDashboard))
    = Some "https://img.example/2.png" /\
  getValues ImageUrl4 (form (uploadCompleted "https://img.example/2.png" bagDashboard))
    = None.
Proof.
  split; [reflexivity|].
  destruct (upload_fills_first_empty_field "https://img.example/2.png" bagDashboard)
    as (_ & _ & _ & Hfirst & _).
  destruct (Hfirst ImageUrl2) as [Hset Hrest].
  - reflexivity.
  - intros g Hg. destruct g; simpl in Hg; try lia. reflexivity.
  - split; [exact Hset|]. rewrite Hrest by discriminate. reflexivity.
Defined.

(** C7. When an upload has failed: the failure is on the console, the
    upload is no longer in progress, and the form, the shown url and the
    rest of the state are as before; nothing is written to the backend
    (the callback has no write to send). *)
Theorem upload_failure_leaves_form (error : string) (st : Dashboard) :
  console (uploadFailed error st) = console st ++ [["Upload failed"; error]] /\
  uploading (uploadFailed error st) = false /\
  form (uploadFailed error st) = form st /\
  (forall field, getValues field (form (uploadFailed error st)) = getValues field (form st)) /\
  uploadedUrl (uploadFailed error st) = uploadedUrl st /\
  editingProduct (uploadFailed error st) = editingProduct st /\
  isDialogOpen (uploadFailed error st) = isDialogOpen st.
Proof. repeat split; reflexivity. Qed.

(** ** Trimming and the taxonomy dialogs *)

Section Trim.

Import Js.

Lemma trimStart_drop_run s : trimStart s = drop_run is_space s.
Proof. induction s as [|c r IH]; simpl; [|rewrite IH]; reflexivity. Qed.

Lemma trimEnd_empty_iff s : trimEnd s = "" <-> all_in is_space s = true.
Proof.
  induction s as [|c r IH]; simpl; [tauto|].
  destruct (trimEnd r) as [|d t]; destruct (is_space c); simpl; split;
    try discriminate; intros H.
  - apply IH. reflexivity.
  - reflexivity.
  - apply IH in H. discriminate.
Qed.

Lemma trimEnd_split s :
  exists r, s = trimEnd s +:+ r /\ all_in is_space r = true.
Proof.
  induction s as [|c r0 (r & E & Hr)]; simpl; [exists ""; auto|].
  destruct (trimEnd r0) as [|d t] eqn:Et.
  - rewrite append_empty in E. subst r0. destruct (is_space c) eqn:Ec.
    + exists (String c r). split; [reflexivity|]. simpl. rewrite Ec. exact Hr.
    + exists r. split; [reflexivity | exact Hr].
  - exists r. split; [|exact Hr]. rewrite append_cons. f_equal. exact E.
Qed.

Lemma starts_in_trimEnd s :
  starts_in is_space s = false -> starts_in is_space (trimEnd s) = false.
Proof.
  destruct s as [|c r]; simpl; [reflexivity|]. intros Hc.
  destruct (trimEnd r); [rewrite Hc|]; simpl; auto.
Qed.

Lemma ends_in_trimEnd s : ends_in is_space (trimEnd s) = false.
Proof.
  induction s as [|c r IH]; simpl; [reflexivity|].
  destruct (trimEnd r) as [|d t].
  - destruct (is_space c) eqn:Ec; simpl; auto.
  - exact IH.
Qed.

Lemma all_in_drop_run_empty cls s : drop_run cls s = "" -> all_in cls s = true.
Proof.
  induction s as [|c r IH]; simpl; [reflexivity|].
  destruct (cls c); [exact IH | discriminate].
Qed.

Lemma drop_run_all_in cls s : all_in cls s = true -> drop_run cls s = "".
Proof.
  induction s as [|c r IH]; simpl; [reflexivity|].
  destruct (cls c); [exact IH | discriminate].
Qed.

(** [trim] gives the empty string exactly on the strings of whitespace. *)
Lemma trim_empty_iff s : trim s = "" <-> all_in is_space s = true.
Proof.
  unfold trim. rewrite trimStart_drop_run, trimEnd_empty_iff. split.
  - intros H. apply all_in_drop_run_empty.
    pose proof (starts_in_drop_run is_space s) as Hs.
    destruct (drop_run is_space s) as [|c r]; [reflexivity|].
    simpl in H, Hs. rewrite Hs in H. discriminate.
  - intros H. rewrite (drop_run_all_in _ _ H). reflexivity.
Qed.

Lemma truthy_trim s : truthy (trim s) = negb (all_in is_space s).
Proof.
  destruct (all_in is_space s) eqn:E.
  - apply trim_empty_iff in E. rewrite E. reflexivity.
  - destruct (trim s) eqn:Et; [|reflexivity].
    apply trim_empty_iff in Et. congruence.
Qed.

(** [trim] removes whitespace around the string and nothing else. *)
Lemma trim_surrounding s :
  exists l r,
    s = l +:+ trim s +:+ r /\
    all_in is_space l = true /\ all_in is_space r = true /\
    starts_in is_space (trim s) = false /\ ends_in is_space (trim s) = false.
Proof.
  unfold trim. rewrite trimStart_drop_run.
  destruct (trimEnd_split (drop_run is_space s)) as (r & E & Hr).
  exists (take_run is_space s), r.
  split; [rewrite <- E; apply take_drop_run|].
  split; [apply all_in_take_run|]. split; [exact Hr|].
  split; [apply starts_in_trimEnd, starts_in_drop_run | apply ends_in_trimEnd].
Qed.

End Trim.

(** C10. The dialogs for a new category and a new style: when the name
    typed in is empty or has whitespace only, nothing is written and the
    state is left as it is; otherwise, with the Firestore handle at hand,
    one document is added to the collection, its name is the trimmed
    input, which is not empty, and the dialog is closed with its input
    cleared.  The trimmed input is the input without the whitespace
    around it. *)
Theorem taxonomy_dialog_adds_trimmed_name (st : Dashboard) :
  (all_in Js.is_space (newCategoryName st) = true -> handleAddCategory st = (st, [])) /\
  (all_in Js.is_space (newStyleName st) = true -> handleAddStyle st = (st, [])) /\
  (firestore st = true -> all_in Js.is_space (newCategoryName st) = false ->
     handleAddCategory st =
       (setIsCategoryDialogOpen false (setNewCategoryName "" st),
        [addDocument "categories" (NameData (Js.trim (newCategoryName st)))]) /\
     Js.trim (newCategoryName st) <> "") /\
  (firestore st = true -> all_in Js.is_space (newStyleName st) = false ->
     handleAddStyle st =
       (setIsStyleDialogOpen false (setNewStyleName "" st),
        [addDocument "styles" (NameData (Js.trim (newStyleName st)))]) /\
     Js.trim (newStyleName st) <> "") /\
  (forall s : string,
     exists l r,
       s = l +:+ Js.trim s +:+ r /\
       all_in Js.is_space l = true /\ all_in Js.is_space r = true /\
       starts_in Js.is_space (Js.trim s) = false /\
       ends_in Js.is_space (Js.trim s) = false).
Proof.
  unfold handleAddCategory, handleAddStyle. rewrite !truthy_trim.
  split; [intros ->; rewrite orb_true_r; reflexivity|].
  split; [intros ->; rewrite orb_true_r; reflexivity|].
  split.
  { intros -> Hs. rewrite Hs. split; [reflexivity|].
    intros E. apply trim_empty_iff in E. congruence. }
  split; [|apply trim_surrounding].
  intros -> Hs. rewrite Hs. split; [reflexivity|].
  intros E. apply trim_empty_iff in E. congruence.
Qed.

Lemma taxonomy_dialog_adds_trimmed_name_witness :
  firestore shoesDialog = true /\
  all_in Js.is_space (newCategoryName shoesDialog) = false /\
  snd (handleAddCategory shoesDialog) = [addDocument "categories" (NameData "Shoes")].
Proof.
  split; [reflexivity|]. split; [reflexivity|].
  destruct (taxonomy_dialog_adds_trimmed_name shoesDialog) as (_ & _ & H & _).
  destruct (H eq_refl eq_refl) as [-> _]. reflexivity.
Defined.

(** ** Order status *)

Section OrderStatusValues.

Lemma status_value_inj (s1 s2 : OrderStatus) :
  status_value s1 = status_value s2 -> s1 = s2.
Proof. destruct s1, s2; intros H; try discriminate H; reflexivity. Qed.



End OrderStatusValues.



(** ** Access gate *)

(** C9. The gate shows one of four views, determined by the identity
    state: the placeholder exactly while the identity is being resolved;
    otherwise the login form exactly when there is no user, the dashboard
    exactly when there is a user whose email is the configured admin
    address, and the denial exactly when there is a user whose email is
    not that address. *)
Theorem access_gate_views
    (isUserLoading : bool) (user : option User) (ADMIN_EMAIL : option string) :
  (AdminDashboard isUserLoading user ADMIN_EMAIL = LoadingPlaceholder <->
     isUserLoading = true) /\
  (AdminDashboard isUserLoading user ADMIN_EMAIL = LoginForm <->
     isUserLoading = false /\ user = None) /\
  (AdminDashboard isUserLoading user ADMIN_EMAIL = DashboardView <->
     isUserLoading = false /\
     exists (u : User) (e : string),
       user = Some u /\ email u = Some e /\ ADMIN_EMAIL = Some e) /\
  (AdminDashboard isUserLoading user ADMIN_EMAIL = AccessDenied <->
     isUserLoading = false /\
     exists u : User,
       user = Some u /\
       ~ (exists e : string, email u = Some e /\ ADMIN_EMAIL = Some e)).
Proof.
  assert (Heq : forall (a b : option string),
            email_is a b = true <-> exists e, a = Some e /\ b = Some e).
  { intros [a|] [b|]; simpl; split; try discriminate.
    - intros H%String.eqb_eq. subst. eauto.
    - intros (e & [= ->] & [= ->]). apply String.eqb_refl.
    - intros (e & _ & H). discriminate.
    - intros (e & H & _). discriminate.
    - intros (e & H & _). discriminate. }
  unfold AdminDashboard.
  destruct isUserLoading; [repeat split; try discriminate; intros [H _]; discriminate|].
  destruct user as [u|]; simpl.
  - destruct (email_is (email u) ADMIN_EMAIL) eqn:E; simpl.
    + apply Heq in E as (e & He & Ha).
      split; [split; discriminate|]. split; [split; [discriminate | intros [_ H]; discriminate]|].
      split; [split; [intros _; split; [reflexivity | eauto] | reflexivity]|].
      split; [discriminate|]. intros (_ & u' & [= <-] & Hn). exfalso. apply Hn. eauto.
    + assert (Hn : ~ (exists e, email u = Some e /\ ADMIN_EMAIL = Some e)).
      { intros H. apply Heq in H. congruence. }
      split; [split; discriminate|]. split; [split; [discriminate | intros [_ H]; discriminate]|].
      split; [split; [discriminate | intros (_ & u' & e & [= <-] & H1 & H2); exfalso; eauto]|].
      split; [intros _; split; [reflexivity | eauto] | reflexivity].
  - split; [split; discriminate|]. split; [split; auto|].
    split; [split; [discriminate | intros (_ & u & e & H & _); discriminate]|].
    split; [discriminate | intros (_ & u & H & _); discriminate].
Qed.

(** * Further properties *)

(** ** Shape of the slug *)

Section SlugShape.

Import Js.

Lemma all_in_impl (P Q : ascii -> bool) s :
  (forall c, P c = true -> Q c = true) -> all_in P s = true -> all_in Q s = true.
Proof.
  intros HPQ. induction s as [|c r IH]; simpl; [reflexivity|].
  intros [Hc Hr]%andb_prop. rewrite (HPQ c Hc). exact (IH Hr).
Qed.

Lemma all_in_app cls s t :
  all_in cls (s +:+ t) = all_in cls s && all_in cls t.
Proof.
  induction s as [|c r IH]; [reflexivity|].
  rewrite append_cons. simpl. rewrite IH. apply andb_assoc.
Qed.

Lemma all_in_keep keep s : all_in keep (spec_keep keep s) = true.
Proof.
  induction s as [|c r IH]; simpl; [reflexivity|].
  destruct (keep c) eqn:E; simpl; [rewrite E|]; exact IH.
Qed.

(** What a collapse keeps: code units of the input outside the class,
    and the hyphen. *)
Lemma Collapsed_all_in cls h (P Q : ascii -> bool) s t :
  (forall c, Q c = true -> cls c = false -> P c = true) -> P h = true ->
  Collapsed cls h s t -> all_in Q s = true -> all_in P t = true.
Proof.
  intros HQ Hh H. induction H as [|c s t Hc H IH|c run s t Hc Hr Hs H IH]; simpl.
  - reflexivity.
  - intros [Hq Hall]%andb_prop. rewrite (HQ c Hq Hc). exact (IH Hall).
  - intros [_ Hall]%andb_prop. rewrite all_in_app in Hall.
    apply andb_prop in Hall as [_ Hall]. rewrite Hh. exact (IH Hall).
Qed.

Lemma Collapsed_starts_in cls h s t :
  cls h = true -> Collapsed cls h s t -> starts_in cls t = starts_in cls s.
Proof. intros Hh H. destruct H; simpl; congruence. Qed.

Lemma Collapsed_no_adjacent cls h s t :
  cls h = true -> Collapsed cls h s t -> no_adjacent cls t = true.
Proof.
  intros Hh H. induction H as [|c s t Hc H IH|c run s t Hc Hr Hs H IH]; simpl.
  - reflexivity.
  - rewrite Hc. exact IH.
  - rewrite (Collapsed_starts_in _ _ _ _ Hh H), Hs, andb_false_r. exact IH.
Qed.

Lemma replace_class_none cls rep s :
  all_in (fun c => negb (cls c)) s = true -> replace_class cls rep s = s.
Proof.
  induction s as [|c r IH]; simpl; [reflexivity|].
  intros [Hc Hr]%andb_prop. apply negb_true_iff in Hc. rewrite Hc, (IH Hr). reflexivity.
Qed.

Lemma replace_plus_none cls rep s :
  all_in (fun c => negb (cls c)) s = true -> replace_plus cls rep s = s.
Proof.
  induction s as [|c r IH]; [reflexivity|]. simpl all_in.
  intros [Hc Hr]%andb_prop. apply negb_true_iff in Hc.
  rewrite replace_plus_cons, Hc, (IH Hr). reflexivity.
Qed.

Lemma drop_run_not_started cls s : starts_in cls s = false -> drop_run cls s = s.
Proof. destruct s as [|c r]; simpl; [reflexivity|]. intros ->. reflexivity. Qed.

Lemma is_hyphen_eq c : is_hyphen c = true -> c = hyphen.
Proof. destruct c as [[] [] [] [] [] [] [] []]; intros H; try discriminate H; reflexivity. Qed.

(** Single hyphens are left alone by the last replacement. *)
Lemma replace_hyphens_single s :
  no_adjacent is_hyphen s = true -> replace_plus is_hyphen "-" s = s.
Proof.
  induction s as [|c r IH]; [reflexivity|]. simpl no_adjacent.
  intros [Hc Hr]%andb_prop. rewrite replace_plus_cons.
  destruct (is_hyphen c) eqn:E.
  - simpl in Hc. apply negb_true_iff in Hc.
    rewrite (drop_run_not_started _ _ Hc), (IH Hr), (is_hyphen_eq c E). reflexivity.
  - rewrite (IH Hr). reflexivity.
Qed.

Lemma lower_char_fixed c : is_upper c = false -> lower_char c = c.
Proof. unfold lower_char. intros ->. reflexivity. Qed.

Lemma toLowerCase_fixed s :
  all_in (fun c => negb (is_upper c)) s = true -> toLowerCase s = s.
Proof.
  induction s as [|c r IH]; simpl; [reflexivity|].
  intros [Hc Hr]%andb_prop. apply negb_true_iff in Hc.
  rewrite (lower_char_fixed c Hc), (IH Hr). reflexivity.
Qed.

Lemma lower_char_idem c : lower_char (lower_char c) = lower_char c.
Proof. destruct c as [[] [] [] [] [] [] [] []]; reflexivity. Qed.

Lemma is_space_lower_char c : is_space (lower_char c) = is_space c.
Proof. destruct c as [[] [] [] [] [] [] [] []]; reflexivity. Qed.

Lemma toLowerCase_idem s : toLowerCase (toLowerCase s) = toLowerCase s.
Proof.
  induction s as [|c r IH]; simpl; [reflexivity|]. rewrite lower_char_idem, IH. reflexivity.
Qed.

Lemma toLowerCase_trimStart s : toLowerCase (trimStart s) = trimStart (toLowerCase s).
Proof.
  induction s as [|c r IH]; simpl; [reflexivity|].
  rewrite is_space_lower_char. destruct (is_space c); [exact IH | reflexivity].
Qed.

Lemma toLowerCase_trimEnd s : toLowerCase (trimEnd s) = trimEnd (toLowerCase s).
Proof.
  induction s as [|c r IH]; simpl; [reflexivity|].
  rewrite <- IH, is_space_lower_char.
  destruct (trimEnd r) as [|d t]; simpl; [destruct (is_space c)|]; reflexivity.
Qed.

Lemma toLowerCase_trim s : toLowerCase (trim s) = trim (toLowerCase s).
Proof. unfold trim. rewrite toLowerCase_trimEnd, toLowerCase_trimStart. reflexivity. Qed.

Lemma trimStart_fixed s : starts_in is_space s = false -> trimStart s = s.
Proof. destruct s as [|c r]; simpl; [reflexivity|]. intros ->. reflexivity. Qed.

Lemma trimEnd_fixed s : ends_in is_space s = false -> trimEnd s = s.
Proof.
  induction s as [|c r IH]; [reflexivity|].
  destruct r as [|d r'].
  - simpl. intros ->. reflexivity.
  - intros H. change (ends_in is_space (String d r') = false) in H.
    change (trimEnd (String c (String d r')))
      with (match trimEnd (String d r') with
            | EmptyString => if is_space c then EmptyString else String c EmptyString
            | t => String c t
            end).
    rewrite (IH H). reflexivity.
Qed.

Lemma trim_idem s : trim (trim s) = trim s.
Proof.
  unfold trim at 1. rewrite trimStart_fixed.
  - apply trimEnd_fixed. unfold trim. apply ends_in_trimEnd.
  - unfold trim. rewrite trimStart_drop_run.
    apply starts_in_trimEnd, starts_in_drop_run.
Qed.

Lemma no_space_ends s :
  all_in (fun c => negb (is_space c)) s = true ->
  starts_in is_space s = false /\ ends_in is_space s = false.
Proof.
  induction s as [|c r IH]; simpl; [auto|].
  intros [Hc Hr]%andb_prop. apply negb_true_iff in Hc. split; [exact Hc|].
  destruct r; [exact Hc | exact (proj2 (IH Hr))].
Qed.

Lemma url_safe_facts c :
  url_safe c = true ->
  is_upper c = false /\ is_space c = false /\ is_amp c = false /\ slug_class c = true.
Proof. destruct c as [[] [] [] [] [] [] [] []]; intros H; try discriminate H; repeat split. Qed.

Lemma slug_class_not_space c :
  slug_class c = true -> is_space c = false -> url_safe c = true.
Proof.
  unfold slug_class, url_safe. intros H Hs. rewrite Hs, orb_false_r in H. exact H.
Qed.

(** The derivation leaves a string of [a-z0-9-] without a double hyphen
    as it is. *)
Lemma generatedSlug_fixed s :
  all_in url_safe s = true -> no_adjacent is_hyphen s = true -> generatedSlug s = s.
Proof.
  intros Hs Hh. unfold generatedSlug.
  assert (Hno : forall P : ascii -> bool,
            (forall c, url_safe c = true -> P c = true) -> all_in P s = true).
  { intros P HP. exact (all_in_impl _ _ s HP Hs). }
  rewrite toLowerCase_fixed
    by (apply Hno; intros c Hc; destruct (url_safe_facts c Hc) as (-> & _); reflexivity).
  assert (Hsp : all_in (fun c => negb (is_space c)) s = true)
    by (apply Hno; intros c Hc; destruct (url_safe_facts c Hc) as (_ & -> & _); reflexivity).
  unfold trim. destruct (no_space_ends s Hsp) as [H1 H2].
  rewrite (trimStart_fixed s H1), (trimEnd_fixed s H2).
  rewrite (replace_class_none is_amp)
    by (apply Hno; intros c Hc; destruct (url_safe_facts c Hc) as (_ & _ & -> & _); reflexivity).
  rewrite (replace_class_none outside_slug_class)
    by (apply Hno; intros c Hc; unfold outside_slug_class;
        destruct (url_safe_facts c Hc) as (_ & _ & _ & ->); reflexivity).
  rewrite (replace_plus_none _ _ s Hsp). apply replace_hyphens_single. exact Hh.
Qed.

Lemma generatedSlug_shape n :
  all_in url_safe (generatedSlug n) = true /\
  no_adjacent is_hyphen (generatedSlug n) = true.
Proof.
  unfold generatedSlug.
  change outside_slug_class with (fun c => negb (slug_class c)).
  rewrite replace_outside_spec.
  set (kept := spec_keep slug_class _).
  pose proof (replace_plus_Collapsed is_space hyphen kept) as H1.
  pose proof (replace_plus_Collapsed is_hyphen hyphen
                (replace_plus is_space (String hyphen EmptyString) kept)) as H2.
  split.
  - eapply (Collapsed_all_in is_hyphen hyphen url_safe url_safe); [| |exact H2|].
    + intros c Hc _. exact Hc.
    + reflexivity.
    + eapply (Collapsed_all_in is_space hyphen url_safe slug_class); [| |exact H1|].
      * exact slug_class_not_space.
      * reflexivity.
      * apply all_in_keep.
  - eapply Collapsed_no_adjacent; [|exact H2]. reflexivity.
Qed.

End SlugShape.

(** X1. Whatever the name, the slug has only the code units [a-z], [0-9]
    and the hyphen, and no two hyphens in a row. *)
Theorem slug_is_url_safe (nameValue : string) :
  all_in url_safe (generatedSlug nameValue) = true /\
  no_adjacent is_hyphen (generatedSlug nameValue) = true.
Proof. apply generatedSlug_shape. Qed.

(** X2. Deriving a slug from a slug changes nothing. *)
Theorem slug_of_slug (nameValue : string) :
  generatedSlug (generatedSlug nameValue) = generatedSlug nameValue.
Proof.
  destruct (generatedSlug_shape nameValue) as [H1 H2].
  apply generatedSlug_fixed; assumption.
Qed.

(** X3. Names that differ in the case of their letters or in whitespace
    around them have the same slug. *)
Theorem slug_ignores_case_and_margin (nameValue : string) :
  generatedSlug (Js.toLowerCase nameValue) = generatedSlug nameValue /\
  generatedSlug (Js.trim nameValue) = generatedSlug nameValue.
Proof.
  unfold generatedSlug. split.
  - rewrite toLowerCase_idem. reflexivity.
  - rewrite toLowerCase_trim, trim_idem. reflexivity.
Qed.

(** ** Sales shown on the cards *)

Section TallyOrder.

Implicit Types (ls : list OrderLine) (os : list Order).

Lemma sold_app id ls1 ls2 : sold id (ls1 ++ ls2) = (sold id ls1 + sold id ls2)%Z.
Proof. induction ls1 as [|l r IH]; simpl; [reflexivity|]. rewrite IH. lia. Qed.

Lemma sold_permutation id os1 os2 :
  os1 ≡ₚ os2 -> sold id (all_lines os1) = sold id (all_lines os2).
Proof.
  unfold all_lines. induction 1 as [|o r1 r2 _ IH|o1 o2 r|r1 r2 r3 _ IH1 _ IH2]; simpl.
  - reflexivity.
  - rewrite !sold_app, IH. reflexivity.
  - rewrite !sold_app. lia.
  - congruence.
Qed.

Lemma line_ids_cons (k : string) o os :
  k ∈ map line_id (all_lines (o :: os)) <->
  k ∈ map line_id (products o) \/ k ∈ map line_id (all_lines os).
Proof.
  unfold all_lines. simpl. rewrite map_app, elem_of_app. reflexivity.
Qed.

Lemma line_ids_permutation (k : string) os1 os2 :
  os1 ≡ₚ os2 ->
  k ∈ map line_id (all_lines os1) <-> k ∈ map line_id (all_lines os2).
Proof.
  induction 1 as [|o r1 r2 _ IH|o1 o2 r|r1 r2 r3 _ IH1 _ IH2].
  - reflexivity.
  - rewrite !line_ids_cons, IH. reflexivity.
  - rewrite !line_ids_cons. tauto.
  - rewrite IH1. exact IH2.
Qed.

Lemma salesCount_lookup os (k : string) :
  salesCount (Some os) !! k =
  if decide (k ∈ map line_id (all_lines os))
  then Some (sold k (all_lines os)) else None.
Proof.
  unfold salesCount. rewrite tally_orders_lines, tally_lines_lookup, lookup_empty.
  reflexivity.
Qed.

End TallyOrder.

(** X4. The number of sales shown on the card of a product is the sum of
    the quantities of the order lines with its id, over all orders: zero
    for a product that no order mentions, and zero while there is no
    snapshot of the orders. *)
Theorem displayed_sales_is_quantity_sold (os : list Order) (id : string) :
  displayedSales (Some os) id = sold id (all_lines os) /\
  displayedSales None id = 0%Z.
Proof.
  split; [|reflexivity].
  unfold displayedSales. rewrite salesCount_lookup.
  case_decide as Hin; [apply or_zero_Some|].
  rewrite (sold_absent id _ Hin). reflexivity.
Qed.

(** X5. The tally does not depend on the order in which the snapshot
    lists the orders. *)
Theorem sales_tally_order_independent (os1 os2 : list Order) (Hperm : os1 ≡ₚ os2) :
  salesCount (Some os1) = salesCount (Some os2).
Proof.
  apply map_eq. intros k. rewrite !salesCount_lookup.
  rewrite (sold_permutation k os1 os2 Hperm).
  apply decide_ext, line_ids_permutation, Hperm.
Qed.

Lemma sales_tally_order_independent_witness :
  [order1; {| order_id := "o2"; status := "shipped";
              products := [ {| line_id := "b"; line_name := "B"; quantity := 5 |} ] |}]
    ≡ₚ [{| order_id := "o2"; status := "shipped";
           products := [ {| line_id := "b"; line_name := "B"; quantity := 5 |} ] |}; order1] /\
  salesCount
    (Some [order1; {| order_id := "o2"; status := "shipped";
                      products := [ {| line_id := "b"; line_name := "B"; quantity := 5 |} ] |}])
  = salesCount
      (Some [{| order_id := "o2"; status := "shipped";
                products := [ {| line_id := "b"; line_name := "B"; quantity := 5 |} ] |}; order1]).
Proof.
  split; [apply Permutation_swap|].
  apply sales_tally_order_independent. apply Permutation_swap.
Defined.

(** ** Editing a product and saving it *)

Section EditAndSave.

Implicit Types (p : Product) (st : Dashboard).

Lemma filled_hydrated_images (imgs : option (list Image)) :
  filled [Some (image_url_at 0 imgs); Some (image_url_at 1 imgs);
          Some (image_url_at 2 imgs); Some (image_url_at 3 imgs)] =
  filter (fun u : string => u <> "") (url <$> take 4 (or_nil imgs)).
Proof.
  rewrite filled_filter.
  destruct imgs as [[|a [|b [|c [|d r]]]]|]; unfold image_url_at; simpl.
  - reflexivity.
  - change [url a; ""; ""; ""] with ([url a] ++ [""; ""; ""]).
    rewrite filter_app. apply app_nil_r.
  - change [url a; url b; ""; ""] with ([url a; url b] ++ [""; ""]).
    rewrite filter_app. apply app_nil_r.
  - change [url a; url b; url c; ""] with ([url a; url b; url c] ++ [""]).
    rewrite filter_app. apply app_nil_r.
  - reflexivity.
  - reflexivity.
Qed.

Lemma images_of_productData data :
  Forall (fun i => alt i = name data /\ hint i = "product image")
    (images (productData data)).
Proof.
  unfold productData. cbn [images]. apply Forall_fmap, Forall_forall.
  intros u _. split; reflexivity.
Qed.

End EditAndSave.

(** X6. Opening a product for editing and saving the form as the page has
    filled it sends one update of that product, closes the dialog and
    clears the edit target.  The written product has the name, slug,
    description, category and price of the stored one and no creation
    stamp; its style is [null] when the stored style is empty or absent;
    its images are the non-empty urls among the first four stored images,
    in their order (a fifth or later image is not written back), each
    with the product name as alt text and the fixed hint. *)
Theorem edit_and_save_round_trip (p : Product) (st : Dashboard)
    (Hfs : firestore st = true) :
  exists d : ProductDoc,
    onSubmit (form (openEditDialog p st)) (openEditDialog p st) =
      (setEditingProduct None (setIsDialogOpen false (openEditDialog p st)),
       [updateDocument "products" (product_id p) (ProductData d)]) /\
    isDialogOpen (fst (onSubmit (form (openEditDialog p st)) (openEditDialog p st))) = false /\
    editingProduct (fst (onSubmit (form (openEditDialog p st)) (openEditDialog p st))) = None /\
    (name (doc_data d), slug (doc_data d), description (doc_data d),
     category (doc_data d), price (doc_data d)) =
      (product_name p, product_slug p, product_description p,
       product_category p, product_price p) /\
    doc_style d = string_or_null (product_style p) /\
    createdAt d = None /\
    url <$> images d =
      filter (fun u : string => u <> "") (url <$> take 4 (or_nil (product_images p))) /\
    Forall (fun i => alt i = product_name p /\ hint i = "product image") (images d).
Proof.
  assert (Hform : form (openEditDialog p st) = hydrated p).
  { unfold openEditDialog.
    rewrite (slugEffect_editing (setIsDialogOpen _ _)) by (simpl; eauto).
    rewrite slugEffect_editing by (simpl; eauto). reflexivity. }
  assert (Hedit : editingProduct (openEditDialog p st) = Some p)
    by apply openEditDialog_slug.
  assert (Hfire : firestore (openEditDialog p st) = true).
  { unfold openEditDialog.
    rewrite (slugEffect_editing (setIsDialogOpen _ _)) by (simpl; eauto).
    rewrite slugEffect_editing by (simpl; eauto). exact Hfs. }
  exists (productData (hydrated p)).
  assert (Hsub : onSubmit (form (openEditDialog p st)) (openEditDialog p st) =
      (setEditingProduct None (setIsDialogOpen false (openEditDialog p st)),
       [updateDocument "products" (product_id p) (ProductData (productData (hydrated p)))])).
  { unfold onSubmit. rewrite Hfire, Hedit, Hform. reflexivity. }
  split; [exact Hsub|]. rewrite Hsub.
  split; [reflexivity|]. split; [reflexivity|]. split; [reflexivity|].
  split; [unfold productData, hydrated; cbn [doc_style style];
          destruct (product_style p) as [[|c s]|]; reflexivity|].
  split; [reflexivity|].
  split.
  - unfold productData. cbn [images]. rewrite url_of_images.
    apply filled_hydrated_images.
  - apply (images_of_productData (hydrated p)).
Qed.

Lemma edit_and_save_round_trip_witness :
  firestore freshDashboard = true /\
  exists d : ProductDoc,
    snd (onSubmit (form (openEditDialog storedBag freshDashboard))
           (openEditDialog storedBag freshDashboard)) =
      [updateDocument "products" "p1" (ProductData d)] /\
    url <$> images d =
      ["https://img.example/1.png"; "https://img.example/3.png"; "https://img.example/4.png"].
Proof.
  split; [reflexivity|].
  destruct (edit_and_save_round_trip storedBag freshDashboard eq_refl)
    as (d & Hw & _ & _ & _ & _ & _ & Hu & _).
  exists d. split; [rewrite Hw; reflexivity | exact Hu].
Defined.

(** ** Uploads one after the other *)

Section Uploads.

Implicit Types (st : Dashboard) (f : ProductFormData) (u : string)
  (done urls : list string) (rest : list (option string)).

Lemma truthy_nonempty u : u <> "" -> Js.truthy u = true.
Proof. destruct u; [contradiction | reflexivity]. Qed.

Lemma form_uploadCompleted u st :
  form (uploadCompleted u st) =
  match List.find (fun field => negb (truthy_opt (getValues field (form st)))) imageFields with
  | Some field => setValue field u (form st)
  | None => form st
  end.
Proof. unfold uploadCompleted. cbn [form setUploading setUploadedUrl]. destruct (List.find _ _); reflexivity. Qed.

(** One upload: the fields that hold a url keep it, and the first of the
    others, if there is one, takes the new url. *)
Lemma imageValues_uploadCompleted u st done rest :
  imageValues (form st) = (Some <$> done) ++ rest ->
  Forall (fun d => d <> "") done ->
  Forall (fun v => truthy_opt v = false) rest ->
  imageValues (form (uploadCompleted u st)) =
  match rest with
  | [] => Some <$> done
  | _ :: rest' => (Some <$> (done ++ [u])) ++ rest'
  end.
Proof.
  rewrite form_uploadCompleted. destruct (form st) as [n s d c sty pr op i1 i2 i3 i4 sz col feat].
  unfold imageValues, imageFields. cbn [imageUrl1 imageUrl2 imageUrl3 imageUrl4].
  intros Hv Hd Hr.
  destruct done as [|d1 [|d2 [|d3 [|d4 [|d5 done]]]]];
    destruct rest as [|r1 [|r2 [|r3 [|r4 [|r5 rest]]]]];
    try discriminate Hv; injection Hv as -> -> -> ->;
    repeat match goal with
           | H : Forall _ (_ :: _) |- _ => apply Forall_cons in H as [? H]
           end;
    repeat match goal with
           | H : ?x <> "" |- _ => apply truthy_nonempty in H
           end;
    simpl;
    repeat match goal with
           | H : _ = _ |- _ => rewrite H; simpl
           end;
    reflexivity.
Qed.

Lemma imageValues_uploadsCompleted urls st done rest :
  imageValues (form st) = (Some <$> done) ++ rest ->
  Forall (fun d => d <> "") done ->
  Forall (fun d => d <> "") urls ->
  Forall (fun v => truthy_opt v = false) rest ->
  imageValues (form (uploadsCompleted urls st)) =
  (Some <$> take (length done + length rest) (done ++ urls)) ++ drop (length urls) rest.
Proof.
  revert st done rest. induction urls as [|u us IH]; intros st done rest Hv Hd Hu Hr.
  - rewrite app_nil_r, take_ge by lia. exact Hv.
  - apply Forall_cons in Hu as [Hu Hus].
    change (uploadsCompleted (u :: us) st) with (uploadsCompleted us (uploadCompleted u st)).
    pose proof (imageValues_uploadCompleted u st done rest Hv Hd Hr) as Hstep.
    destruct rest as [|v rest'].
    + rewrite <- (app_nil_r (Some <$> done)) in Hstep.
      rewrite (IH _ done [] Hstep Hd Hus Hr). simpl. rewrite !Nat.add_0_r.
      rewrite !take_app_length. rewrite drop_nil. reflexivity.
    + apply Forall_cons in Hr as [_ Hr].
      assert (Hd' : Forall (fun d => d <> "") (done ++ [u])).
      { apply Forall_app. split; [exact Hd|]. constructor; [exact Hu | constructor]. }
      rewrite (IH _ (done ++ [u]) rest' Hstep Hd' Hus Hr).
      rewrite <- app_assoc, length_app. simpl.
      replace (length done + 1 + length rest')%nat with (length done + S (length rest'))%nat by lia.
      reflexivity.
Qed.

Lemma filled_some_nonempty done : Forall (fun d => d <> "") done -> filled (Some <$> done) = done.
Proof.
  induction 1 as [|d r Hd _ IH]; [reflexivity|].
  rewrite fmap_cons. destruct d as [|c s]; [contradiction|].
  change (filled (Some (String c s) :: (Some <$> r))) with (String c s :: filled (Some <$> r)).
  rewrite IH. reflexivity.
Qed.

Lemma filled_falsy rest : Forall (fun v => truthy_opt v = false) rest -> filled rest = [].
Proof.
  induction 1 as [|v r Hv _ IH]; [reflexivity|].
  destruct v as [[|c s]|]; [exact IH | discriminate Hv | exact IH].
Qed.

Lemma filled_app l1 l2 : filled (l1 ++ l2) = filled l1 ++ filled l2.
Proof. unfold filled. apply omap_app. Qed.

End Uploads.

(** X7. Uploads that complete one after the other, into a form whose
    image fields hold no value, fill the fields in the order of the
    uploads: the fields then hold the first four urls, and these are, in
    that order, the image urls of the product that a submit of the form
    writes; a fifth or later upload changes no field. *)
Theorem uploads_fill_fields_in_order (urls : list string) (st : Dashboard)
    (Hurls : Forall (fun u => u <> "") urls)
    (Hempty : Forall (fun v => truthy_opt v = false) (imageValues (form st))) :
  filled (imageValues (form (uploadsCompleted urls st))) = take 4 urls /\
  url <$> images (productData (form (uploadsCompleted urls st))) = take 4 urls /\
  (forall u : string, (4 <= length urls)%nat ->
     form (uploadCompleted u (uploadsCompleted urls st)) = form (uploadsCompleted urls st)).
Proof.
  pose proof (imageValues_uploadsCompleted urls st [] (imageValues (form st))
                eq_refl (List.Forall_nil _) Hurls Hempty) as Hv.
  simpl in Hv.
  assert (Hf : filled (imageValues (form (uploadsCompleted urls st))) = take 4 urls).
  { rewrite Hv, filled_app.
    rewrite filled_some_nonempty by (apply Forall_take; exact Hurls).
    rewrite filled_falsy by (apply Forall_drop; exact Hempty).
    apply app_nil_r. }
  split; [exact Hf|]. split.
  - unfold productData. cbn [images]. rewrite url_of_images. exact Hf.
  - intros u Hlen. rewrite form_uploadCompleted, find_none_empty; [reflexivity|].
    rewrite drop_ge in Hv by (simpl; lia). rewrite app_nil_r in Hv.
    assert (Hall : Forall (fun v => truthy_opt v = true)
                     (imageValues (form (uploadsCompleted urls st)))).
    { rewrite Hv. apply Forall_fmap, Forall_take.
      eapply Forall_impl; [exact Hurls|]. intros x Hx. apply truthy_nonempty. exact Hx. }
    unfold imageValues in Hall.
    apply Forall_cons in Hall as [H1 Hall]. apply Forall_cons in Hall as [H2 Hall].
    apply Forall_cons in Hall as [H3 Hall]. apply Forall_cons in Hall as [H4 _].
    intros g. destruct g; assumption.
Qed.

Lemma uploads_fill_fields_in_order_witness :
  Forall (fun u : string => u <> "") ["https://a/1"; "https://a/2"] /\
  Forall (fun v => truthy_opt v = false) (imageValues (form freshDashboard)) /\
  filled (imageValues (form (uploadsCompleted ["https://a/1"; "https://a/2"] freshDashboard)))
    = ["https://a/1"; "https://a/2"].
Proof.
  assert (H1 : Forall (fun u : string => u <> "") ["https://a/1"; "https://a/2"])
    by (repeat constructor; discriminate).
  assert (H2 : Forall (fun v => truthy_opt v = false) (imageValues (form freshDashboard)))
    by (repeat constructor).
  split; [exact H1|]. split; [exact H2|].
  exact (proj1 (uploads_fill_fields_in_order _ _ H1 H2)).
Defined.

(** ** Start of an upload *)

Section StoragePath.

Lemma is_digit_pretty_N_char (x : N) : is_digit (pretty_N_char x) = true.
Proof. unfold pretty_N_char. repeat case_match; reflexivity. Qed.

Lemma all_digits_pretty_N_go (x : N) (s : string) :
  all_in is_digit s = true -> all_in is_digit (pretty_N_go x s) = true.
Proof.
  revert s. induction (N.lt_wf_0 x) as [x _ IH]; intros s Hs.
  destruct (decide (x = 0)%N) as [->|Hx]; [rewrite pretty_N_go_0; exact Hs|].
  rewrite pretty_N_go_step by lia. apply IH.
  - apply N.div_lt; lia.
  - simpl. rewrite is_digit_pretty_N_char. exact Hs.
Qed.

Lemma all_digits_pretty (x : N) : all_in is_digit (pretty x) = true.
Proof.
  unfold pretty, pretty_N. case_decide; [reflexivity|].
  apply all_digits_pretty_N_go. reflexivity.
Qed.

(** A run and what follows it: the run too is determined. *)
Lemma run_split_unique_run cls run1 run2 s1 s2 :
  all_in cls run1 = true -> all_in cls run2 = true ->
  starts_in cls s1 = false -> starts_in cls s2 = false ->
  run1 +:+ s1 = run2 +:+ s2 -> run1 = run2.
Proof.
  revert run2.
  induction run1 as [|a r1 IH]; intros [|b r2] A1 A2 S1 S2 E;
    rewrite ?append_cons, ?append_empty in E; simpl in *.
  - reflexivity.
  - subst s1. simpl in S1. apply andb_prop in A2 as [Hb _]. congruence.
  - subst s2. simpl in S2. apply andb_prop in A1 as [Ha _]. congruence.
  - injection E as -> E.
    apply andb_prop in A1 as [_ A1]. apply andb_prop in A2 as [_ A2].
    f_equal. eauto.
Qed.

End StoragePath.

(** X8. Two uploads get the same storage path exactly when they start at
    the same millisecond with files of the same name; every path lies
    under [products/]. *)
Theorem storage_path_collides_only_on_same_time_and_name
    (now1 now2 : N) (file1 file2 : File) :
  (storagePath now1 file1 = storagePath now2 file2 <->
     now1 = now2 /\ file_name file1 = file_name file2) /\
  (exists rest, storagePath now1 file1 = "products/" +:+ rest).
Proof.
  split; [|unfold storagePath; eauto].
  unfold storagePath. split.
  - intros E. apply (inj (String.app "products/")) in E.
    assert (Hs : forall f, starts_in is_digit ("-" +:+ file_name f) = false)
      by reflexivity.
    pose proof (run_split_unique is_digit _ _ _ _
                  (all_digits_pretty now1) (all_digits_pretty now2)
                  (Hs file1) (Hs file2) E) as Hn.
    pose proof (run_split_unique_run is_digit _ _ _ _
                  (all_digits_pretty now1) (all_digits_pretty now2)
                  (Hs file1) (Hs file2) E) as Ht.
    split; [exact (inj pretty _ _ Ht)|].
    apply (inj (String.app "-")) in Hn. exact Hn.
  - intros [-> ->]. reflexivity.
Qed.

(** X9. Choosing a file starts an upload only if there is a file and the
    Firebase app; it then disables the file input and takes away the url
    shown by an earlier upload, without touching the form.  If the
    upload fails, the input is enabled again, no url is shown, and the
    form is as it was; if it completes with a non-empty url, the input is
    enabled again and that url is shown. *)
Theorem upload_lifecycle (file : File) (now : N) (st : Dashboard)
    (error downloadURL : string) :
  (forall app, handleImageUpload None app now st = (st, None)) /\
  handleImageUpload (Some file) false now st = (st, None) /\
  snd (handleImageUpload (Some file) true now st) = Some (storagePath now file) /\
  fileInputDisabled (fst (handleImageUpload (Some file) true now st)) = true /\
  shownUploadedUrl (fst (handleImageUpload (Some file) true now st)) = None /\
  form (fst (handleImageUpload (Some file) true now st)) = form st /\
  fileInputDisabled (uploadFailed error (fst (handleImageUpload (Some file) true now st))) = false /\
  shownUploadedUrl (uploadFailed error (fst (handleImageUpload (Some file) true now st))) = None /\
  form (uploadFailed error (fst (handleImageUpload (Some file) true now st))) = form st /\
  fileInputDisabled (uploadCompleted downloadURL (fst (handleImageUpload (Some file) true now st))) = false /\
  shownUploadedUrl (uploadCompleted downloadURL (fst (handleImageUpload (Some file) true now st))) =
    (if Js.truthy downloadURL then Some downloadURL else None).
Proof.
  assert (Hdone : forall s0,
            uploading (uploadCompleted downloadURL s0) = false /\
            uploadedUrl (uploadCompleted downloadURL s0) = Some downloadURL).
  { intros s0. unfold uploadCompleted.
    destruct (List.find _ imageFields); split; reflexivity. }
  do 9 (split; [reflexivity|]).
  unfold fileInputDisabled, shownUploadedUrl.
  destruct (Hdone (fst (handleImageUpload (Some file) true now st))) as [-> ->].
  split; [reflexivity|]. rewrite andb_true_r. reflexivity.
Qed.

(** ** Login *)

Section Login.

Implicit Types (ls : LoginState) (signIn : string -> string -> SignInOutcome).

Lemma loginErrorOf_cases code message :
  loginErrorOf code message =
  if bool_decide (code ∈ ["auth/user-not-found"; "auth/invalid-credential"; "auth/wrong-password"])
  then credentialsMessage else "Login failed: " +:+ message.
Proof.
  unfold loginErrorOf.
  destruct (String.eqb_spec code "auth/user-not-found") as [->|H1]; [reflexivity|].
  destruct (String.eqb_spec code "auth/invalid-credential") as [->|H2]; [reflexivity|].
  destruct (String.eqb_spec code "auth/wrong-password") as [->|H3]; [reflexivity|].
  rewrite bool_decide_eq_false_2; [reflexivity|].
  rewrite !not_elem_of_cons. repeat split; try assumption. apply not_elem_of_nil.
Qed.

End Login.

(** X10. A login attempt, run to its end.  Without the auth service or
    without a non-empty admin address, no sign-in is tried and the error
    shown says that the page is not configured.  Otherwise the sign-in is
    tried once, with the email and password typed in, whatever the email;
    afterwards the form is no longer busy, keeps the email and password,
    and shows no error exactly when the sign-in went through.  A rejection
    with one of the three credential codes shows the fixed credentials
    message; any other rejection shows "Login failed: " and the message
    of the error. *)
Theorem login_attempt_outcome (auth : bool) (ADMIN_EMAIL : option string)
    (signIn : string -> string -> SignInOutcome) (ls : LoginState) :
  (snd (handleLogin auth ADMIN_EMAIL signIn ls) =
     if auth && truthy_opt ADMIN_EMAIL then [(login_email ls, login_password ls)] else []) /\
  login_email (fst (handleLogin auth ADMIN_EMAIL signIn ls)) = login_email ls /\
  login_password (fst (handleLogin auth ADMIN_EMAIL signIn ls)) = login_password ls /\
  (loginError (fst (handleLogin auth ADMIN_EMAIL signIn ls)) = None <->
     auth = true /\ truthy_opt ADMIN_EMAIL = true /\
     signIn (login_email ls) (login_password ls) = SignedIn) /\
  (auth && truthy_opt ADMIN_EMAIL = false ->
     loginError (fst (handleLogin auth ADMIN_EMAIL signIn ls)) = Some notConfiguredMessage /\
     isLoggingIn (fst (handleLogin auth ADMIN_EMAIL signIn ls)) = isLoggingIn ls) /\
  (auth && truthy_opt ADMIN_EMAIL = true ->
     isLoggingIn (fst (handleLogin auth ADMIN_EMAIL signIn ls)) = false /\
     forall code message,
       signIn (login_email ls) (login_password ls) = SignInRejected code message ->
       loginError (fst (handleLogin auth ADMIN_EMAIL signIn ls)) =
         Some (if bool_decide (code ∈ ["auth/user-not-found"; "auth/invalid-credential";
                                       "auth/wrong-password"])
               then credentialsMessage else "Login failed: " +:+ message)).
Proof.
  unfold handleLogin.
  assert (Hcfg : negb auth || negb (truthy_opt ADMIN_EMAIL) = negb (auth && truthy_opt ADMIN_EMAIL))
    by (destruct auth, (truthy_opt ADMIN_EMAIL); reflexivity).
  rewrite Hcfg.
  destruct (auth && truthy_opt ADMIN_EMAIL) eqn:Hboth; cbn [negb fst snd
    login_email login_password loginError isLoggingIn loginPending].
  - apply andb_prop in Hboth as [Ha He].
    split; [reflexivity|]. split; [reflexivity|]. split; [reflexivity|].
    split.
    { destruct (signIn (login_email ls) (login_password ls)); split.
      - intros _. auto.
      - reflexivity.
      - discriminate.
      - intros (_ & _ & H). discriminate H. }
    split; [discriminate|]. intros _. split; [reflexivity|].
    intros code message ->. rewrite loginErrorOf_cases. reflexivity.
  - split; [reflexivity|]. split; [reflexivity|]. split; [reflexivity|].
    split.
    { split; [discriminate|]. intros (Ha & He & _). rewrite Ha, He in Hboth. discriminate. }
    split; [intros _; split; reflexivity | discriminate].
Qed.

Lemma login_attempt_outcome_witness :
  true && truthy_opt (Some "admin@shop.example") = true /\
  loginError
    (fst (handleLogin true (Some "admin@shop.example")
            (fun _ _ => SignInRejected "auth/network-request-failed" "offline")
            {| login_email := "a@b.example"; login_password := "pw";
               loginError := None; isLoggingIn := false |}))
  = Some "Login failed: offline".
Proof.
  split; [reflexivity|].
  destruct (login_attempt_outcome true (Some "admin@shop.example")
              (fun _ _ => SignInRejected "auth/network-request-failed" "offline")
              {| login_email := "a@b.example"; login_password := "pw";
                 loginError := None; isLoggingIn := false |})
    as (_ & _ & _ & _ & _ & H).
  destruct (H eq_refl) as [_ Hrej]. rewrite (Hrej _ _ eq_refl). reflexivity.
Defined.

(** ** Size checkboxes and colour buttons *)

Section Selections.

Lemma sizeChecked_or_nil (size : string) (value : option (list string)) :
  sizeChecked size value = bool_decide (size ∈ or_nil value).
Proof.
  destruct value as [l|]; reflexivity.
Qed.

Lemma filter_all {A} (P : A -> Prop) `{forall x, Decision (P x)} (l : list A) :
  Forall P l -> filter P l = l.
Proof.
  induction 1 as [|x r Hx _ IH]; [reflexivity|].
  rewrite filter_cons_True by exact Hx. rewrite IH. reflexivity.
Qed.

Lemma isSelected_or_nil (color : Color) (value : option (list Color)) :
  isSelected color value = existsb (fun c => String.eqb (hex c) (hex color)) (or_nil value).
Proof. destruct value; reflexivity. Qed.

Lemma existsb_filter_same (color : Color) (l : list Color) :
  existsb (fun c => String.eqb (hex c) (hex color))
    (filter (fun c => hex c <> hex color) l) = false.
Proof.
  induction l as [|x r IH]; [reflexivity|].
  rewrite filter_cons. case_decide as Hx; [|exact IH].
  simpl. rewrite IH, orb_false_r. apply String.eqb_neq. exact Hx.
Qed.

Lemma existsb_filter_other (color other : Color) (l : list Color) :
  hex other <> hex color ->
  existsb (fun c => String.eqb (hex c) (hex other))
    (filter (fun c => hex c <> hex color) l) =
  existsb (fun c => String.eqb (hex c) (hex other)) l.
Proof.
  intros Hne. induction l as [|x r IH]; [reflexivity|].
  rewrite filter_cons. case_decide as Hx; simpl; rewrite IH; [reflexivity|].
  replace (String.eqb (hex x) (hex other)) with false; [reflexivity|].
  symmetry. apply String.eqb_neq. congruence.
Qed.

Lemma isSelected_click_same (color : Color) (value : option (list Color)) :
  isSelected color (Some (onColorClick color value)) = negb (isSelected color value).
Proof.
  unfold onColorClick. destruct (isSelected color value) eqn:E; simpl.
  - apply existsb_filter_same.
  - rewrite existsb_app. rewrite isSelected_or_nil in E. rewrite E. simpl.
    rewrite String.eqb_refl. reflexivity.
Qed.

Lemma isSelected_click_other (color other : Color) (value : option (list Color)) :
  hex other <> hex color ->
  isSelected other (Some (onColorClick color value)) = isSelected other value.
Proof.
  intros Hne. unfold onColorClick. rewrite (isSelected_or_nil other value).
  destruct (isSelected color value); simpl.
  - apply existsb_filter_other. exact Hne.
  - rewrite existsb_app. simpl.
    replace (String.eqb (hex color) (hex other)) with false; [rewrite !orb_false_r; reflexivity|].
    symmetry. apply String.eqb_neq. congruence.
Qed.

Lemma isSelected_clicks (color : Color) (clicks : list Color) (value : option (list Color)) :
  isSelected color (colorClicks clicks value) =
  xorb (isSelected color value) (Nat.odd (clicksOn color clicks)).
Proof.
  revert value. induction clicks as [|c r IH]; intros value.
  - simpl. rewrite xorb_false_r. reflexivity.
  - change (colorClicks (c :: r) value) with (colorClicks r (Some (onColorClick c value))).
    rewrite IH. simpl clicksOn.
    destruct (String.eqb_spec (hex c) (hex color)) as [E|Hne].
    + assert (Hsel : isSelected color (Some (onColorClick c value))
                     = negb (isSelected color value)).
      { assert (Hc : forall v, isSelected color v = isSelected c v)
          by (intros v; rewrite !isSelected_or_nil, E; reflexivity).
        rewrite !Hc. apply isSelected_click_same. }
      rewrite Hsel. change (1 + clicksOn color r)%nat with (S (clicksOn color r)).
      rewrite Nat.odd_succ, <- Nat.negb_odd.
      destruct (isSelected color value), (Nat.odd (clicksOn color r)); reflexivity.
    + rewrite isSelected_click_other by congruence. reflexivity.
Qed.

Lemma NoDup_hex_click (color : Color) (value : option (list Color)) :
  NoDup (hex <$> or_nil value) -> NoDup (hex <$> onColorClick color value).
Proof.
  intros Hnd. unfold onColorClick. destruct (isSelected color value) eqn:E.
  - induction (or_nil value) as [|x r IH]; [constructor|].
    rewrite fmap_cons in Hnd. apply NoDup_cons in Hnd as [Hx Hr].
    rewrite filter_cons. case_decide; [|exact (IH Hr)].
    rewrite fmap_cons. apply NoDup_cons. split; [|exact (IH Hr)].
    rewrite list_elem_of_fmap. rewrite list_elem_of_fmap in Hx.
    intros (y & Ey & Hy). apply Hx. exists y. split; [exact Ey|].
    apply list_elem_of_filter in Hy as [_ Hy]. exact Hy.
  - rewrite fmap_app. apply NoDup_app. split; [exact Hnd|]. split.
    + intros h Hh Hh'. apply list_elem_of_singleton in Hh'. subst h.
      apply list_elem_of_fmap in Hh as (y & Ey & Hy).
      rewrite isSelected_or_nil in E.
      assert (Hex : existsb (fun c => String.eqb (hex c) (hex color)) (or_nil value) = true).
      { apply existsb_exists. exists y. split; [apply list_elem_of_In; exact Hy|].
        apply String.eqb_eq. congruence. }
      congruence.
    + apply NoDup_singleton.
Qed.

Lemma click_subseteq (color : Color) (value : option (list Color)) (c : Color) :
  c ∈ onColorClick color value -> c = color \/ c ∈ or_nil value.
Proof.
  unfold onColorClick. destruct (isSelected color value).
  - intros [_ H]%list_elem_of_filter. right. exact H.
  - intros [H|H]%elem_of_app; [right; exact H|].
    apply list_elem_of_singleton in H. left. exact H.
Qed.

End Selections.

(** X11. The checkbox of a size: checking it makes it part of the sizes,
    unchecking it removes every occurrence of it, and neither changes
    whether another size is part of them.  Unchecking a size right after
    checking it gives back the sizes as they were, if the size was not
    among them; and when the checkbox reports the opposite of the state
    it shows, sizes without repetition stay without repetition. *)
Theorem size_checkbox_toggles (size : string) (value : option (list string)) :
  sizeChecked size (Some (onSizeCheckedChange size true value)) = true /\
  sizeChecked size (Some (onSizeCheckedChange size false value)) = false /\
  (forall (other : string) (c : bool), other <> size ->
     sizeChecked other (Some (onSizeCheckedChange size c value)) = sizeChecked other value) /\
  (sizeChecked size value = false ->
     onSizeCheckedChange size false (Some (onSizeCheckedChange size true value)) = or_nil value) /\
  (NoDup (or_nil value) ->
     NoDup (onSizeCheckedChange size (negb (sizeChecked size value)) value)).
Proof.
  rewrite !sizeChecked_or_nil. unfold onSizeCheckedChange. cbn [or_nil sizeChecked].
  split; [apply bool_decide_eq_true_2, elem_of_app; right; apply list_elem_of_singleton; reflexivity|].
  split.
  { apply bool_decide_eq_false_2. intros [H _]%list_elem_of_filter. apply H. reflexivity. }
  split.
  { intros other c Hne. rewrite sizeChecked_or_nil. apply bool_decide_ext.
    destruct c.
    - rewrite elem_of_app, list_elem_of_singleton. tauto.
    - rewrite list_elem_of_filter. tauto. }
  split.
  { intros Hno. apply bool_decide_eq_false_1 in Hno.
    rewrite filter_app.
    rewrite (filter_singleton_False (fun v => v <> size) size [])
      by (intros H; apply H; reflexivity).
    rewrite app_nil_r. apply filter_all, Forall_forall. congruence. }
  intros Hnd. destruct (bool_decide (size ∈ or_nil value)) eqn:E; simpl.
  - apply NoDup_filter. exact Hnd.
  - apply bool_decide_eq_false_1 in E. apply NoDup_app.
    split; [exact Hnd|]. split; [|apply NoDup_singleton].
    intros x Hx Hx'. apply list_elem_of_singleton in Hx'. congruence.
Qed.

Lemma size_checkbox_toggles_witness :
  sizeChecked "M" (Some ["S"; "L"]) = false /\
  NoDup (or_nil (Some ["S"; "L"])) /\
  onSizeCheckedChange "M" false (Some (onSizeCheckedChange "M" true (Some ["S"; "L"])))
    = ["S"; "L"] /\
  NoDup (onSizeCheckedChange "M" (negb (sizeChecked "M" (Some ["S"; "L"]))) (Some ["S"; "L"])).
Proof.
  assert (Hnd : NoDup (or_nil (Some ["S"; "L"])))
    by (apply (bool_decide_unpack _); vm_compute; reflexivity).
  destruct (size_checkbox_toggles "M" (Some ["S"; "L"])) as (_ & _ & _ & Hback & Hkeep).
  split; [reflexivity|]. split; [exact Hnd|].
  split; [exact (Hback eq_refl) | exact (Hkeep Hnd)].
Defined.

(** X12. The button of a colour: a click turns its selection around and
    leaves the selection of every colour with another hex value as it
    was; so after any clicks a colour is selected exactly when it was
    selected before and clicked an even number of times, or was not and
    has been clicked an odd number of times. *)
Theorem colour_click_toggles (color : Color) (value : option (list Color)) :
  isSelected color (Some (onColorClick color value)) = negb (isSelected color value) /\
  (forall other : Color, hex other <> hex color ->
     isSelected other (Some (onColorClick color value)) = isSelected other value) /\
  (forall clicks : list Color,
     isSelected color (colorClicks clicks value) =
     xorb (isSelected color value) (Nat.odd (clicksOn color clicks))).
Proof.
  split; [apply isSelected_click_same|].
  split; [intros other; apply isSelected_click_other | intros clicks; apply isSelected_clicks].
Qed.

Lemma colour_click_toggles_witness :
  hex {| color_name := "Red"; hex := "#EF4444" |} <> hex {| color_name := "Blue"; hex := "#3B82F6" |} /\
  isSelected {| color_name := "Red"; hex := "#EF4444" |}
    (Some (onColorClick {| color_name := "Blue"; hex := "#3B82F6" |}
             (Some [ {| color_name := "Red"; hex := "#EF4444" |} ]))) = true.
Proof.
  split; [discriminate|].
  rewrite (proj1 (proj2 (colour_click_toggles {| color_name := "Blue"; hex := "#3B82F6" |}
                           (Some [ {| color_name := "Red"; hex := "#EF4444" |} ])))
             {| color_name := "Red"; hex := "#EF4444" |}) by discriminate.
  reflexivity.
Defined.

(** X13. Clicks on colour buttons keep the hex values of the selection
    free of repetition; and from an empty or absent selection, clicks on
    buttons of the palette select colours of the palette only, whose hex
    values are pairwise distinct. *)
Theorem colour_selection_invariants (clicks : list Color) (value : option (list Color)) :
  NoDup (hex <$> PRESET_COLORS) /\
  (NoDup (hex <$> or_nil value) -> NoDup (hex <$> or_nil (colorClicks clicks value))) /\
  (or_nil value = [] -> Forall (fun c => c ∈ PRESET_COLORS) clicks ->
     Forall (fun c => c ∈ PRESET_COLORS) (or_nil (colorClicks clicks value)) /\
     NoDup (hex <$> or_nil (colorClicks clicks value))).
Proof.
  assert (Hstep : forall cs v, NoDup (hex <$> or_nil v) ->
            NoDup (hex <$> or_nil (colorClicks cs v))).
  { induction cs as [|c r IH]; intros v Hv; [exact Hv|].
    change (colorClicks (c :: r) v) with (colorClicks r (Some (onColorClick c v))).
    apply IH. cbn [or_nil]. apply NoDup_hex_click. exact Hv. }
  assert (Hsub : forall cs v, Forall (fun c => c ∈ PRESET_COLORS) (or_nil v) ->
            Forall (fun c => c ∈ PRESET_COLORS) cs ->
            Forall (fun c => c ∈ PRESET_COLORS) (or_nil (colorClicks cs v))).
  { induction cs as [|c r IH]; intros v Hv Hcs; [exact Hv|].
    change (colorClicks (c :: r) v) with (colorClicks r (Some (onColorClick c v))).
    inversion Hcs as [|? ? Hc Hr]; subst. apply IH; [|exact Hr].
    cbn [or_nil]. apply Forall_forall. intros x Hx.
    apply click_subseteq in Hx as [->|Hx]; [exact Hc|].
    rewrite Forall_forall in Hv. exact (Hv x Hx). }
  split; [apply (bool_decide_unpack _); vm_compute; reflexivity|].
  split; [apply Hstep|].
  intros He Hcs. split.
  - apply Hsub; [rewrite He; constructor | exact Hcs].
  - apply Hstep. rewrite He. constructor.
Qed.

Lemma colour_selection_invariants_witness :
  or_nil (@None (list Color)) = [] /\
  Forall (fun c => c ∈ PRESET_COLORS)
    [ {| color_name := "Red"; hex := "#EF4444" |}; {| color_name := "Sky"; hex := "#0EA5E9" |};
      {| color_name := "Red"; hex := "#EF4444" |} ] /\
  NoDup (hex <$> or_nil (colorClicks
    [ {| color_name := "Red"; hex := "#EF4444" |}; {| color_name := "Sky"; hex := "#0EA5E9" |};
      {| color_name := "Red"; hex := "#EF4444" |} ] None)).
Proof.
  assert (Hcs : Forall (fun c => c ∈ PRESET_COLORS)
    [ {| color_name := "Red"; hex := "#EF4444" |}; {| color_name := "Sky"; hex := "#0EA5E9" |};
      {| color_name := "Red"; hex := "#EF4444" |} ]).
  { repeat constructor; unfold PRESET_COLORS; rewrite !elem_of_cons; auto 12. }
  split; [reflexivity|]. split; [exact Hcs|].
  destruct (colour_selection_invariants
    [ {| color_name := "Red"; hex := "#EF4444" |}; {| color_name := "Sky"; hex := "#0EA5E9" |};
      {| color_name := "Red"; hex := "#EF4444" |} ] None) as (_ & _ & H).
  exact (proj2 (H eq_refl Hcs)).
Defined.

(** ** A name added through a dialog, and seeding *)

Section DialogAndSeeding.

Lemma missing_snoc defaults (docs : list Category) (c : Category) :
  missing defaults (docs ++ [c]) =
  filter (fun d => Js.toLowerCase d <> Js.toLowerCase (cat_name c)) (missing defaults docs).
Proof.
  unfold missing. rewrite list_filter_filter. apply list_filter_iff. intros d.
  unfold lowerNames. rewrite fmap_app, elem_of_app.
  change ((fun c0 => Js.toLowerCase (cat_name c0)) <$> [c])
    with [Js.toLowerCase (cat_name c)].
  rewrite list_elem_of_singleton.
  split.
  - intros H. split; [intros E; apply H; right; exact E | intros E; apply H; left; exact E].
  - intros [H1 H2] [E|E]; [exact (H2 E) | exact (H1 E)].
Qed.

End DialogAndSeeding.

(** X14. A category added through the dialog is appended to the
    collection under its trimmed name whether or not the collection has
    that name already: the dialog checks for no duplicate.  The styles
    are left alone.  Afterwards seeding still adds the defaults that were
    missing before, except the one, if any, that equals the new name when
    case is ignored. *)
Theorem dialog_add_then_seed (newId : list Category -> string) (t : Taxonomy)
    (st : Dashboard) (Hfs : firestore st = true)
    (Hname : all_in Js.is_space (newCategoryName st) = false) :
  categories (applyWrites newId t (snd (handleAddCategory st))) =
    categories t ++
      [{| cat_id := newId (categories t); cat_name := Js.trim (newCategoryName st) |}] /\
  styles (applyWrites newId t (snd (handleAddCategory st))) = styles t /\
  missing defaultCategories (categories (applyWrites newId t (snd (handleAddCategory st)))) =
    filter (fun d => Js.toLowerCase d <> Js.toLowerCase (Js.trim (newCategoryName st)))
      (missing defaultCategories (categories t)).
Proof.
  assert (Hw : snd (handleAddCategory st) =
               [addDocument "categories" (NameData (Js.trim (newCategoryName st)))]).
  { unfold handleAddCategory. rewrite truthy_trim, Hfs, Hname. reflexivity. }
  rewrite Hw. destruct t as [cs ss]. cbn [applyWrites foldl applyWrite categories styles].
  change (String.eqb "categories" "categories") with true. cbn [categories styles addNamed].
  split; [reflexivity|]. split; [reflexivity|].
  apply missing_snoc.
Qed.

Lemma dialog_add_then_seed_witness :
  firestore (setNewCategoryName " women " freshDashboard) = true /\
  all_in Js.is_space (newCategoryName (setNewCategoryName " women " freshDashboard)) = false /\
  names (categories (applyWrites unaryId womenOnly
           (snd (handleAddCategory (setNewCategoryName " women " freshDashboard)))))
    = ["WOMEN"; "women"] /\
  missing defaultCategories (categories (applyWrites unaryId womenOnly
           (snd (handleAddCategory (setNewCategoryName " women " freshDashboard)))))
    = ["Men"; "Unisex"; "Bags"].
Proof.
  split; [reflexivity|]. split; [reflexivity|].
  destruct (dialog_add_then_seed unaryId womenOnly
              (setNewCategoryName " women " freshDashboard) eq_refl eq_refl)
    as (Hc & _ & Hm).
  rewrite Hm, Hc. split; vm_compute; reflexivity.
Defined.

(** ** The slug over a session of typing *)

Section SlugHistory.

Implicit Types (st : Dashboard) (v acc : string) (vs : list string).

Lemma changeNames_invariant vs st acc :
  editingProduct st = None ->
  slug (form st) = generatedSlug acc ->
  (Js.truthy (name (form st)) = true -> name (form st) = acc) ->
  slug (form (changeNames vs st)) =
  generatedSlug (foldl (fun a v => if Js.truthy v then v else a) acc vs).
Proof.
  revert st acc. induction vs as [|v r IH]; intros st acc He Hs Hn; [exact Hs|].
  change (changeNames (v :: r) st) with (changeNames r (changeName v st)).
  simpl foldl. apply IH; unfold changeName.
  - destruct (String.eqb v (name (form st))); [exact He|].
    unfold slugEffect. cbn [form set_form editingProduct]. rewrite He. simpl.
    destruct (Js.truthy v); exact He.
  - destruct (String.eqb_spec v (name (form st))) as [->|Hne].
    + cbn [form set_form slug setName].
      destruct (Js.truthy (name (form st))) eqn:Et; [|exact Hs].
      rewrite (Hn eq_refl). exact Hs.
    + unfold slugEffect. cbn [form set_form editingProduct name setName]. rewrite He. simpl.
      destruct (Js.truthy v); [reflexivity | exact Hs].
  - destruct (String.eqb_spec v (name (form st))) as [->|Hne].
    + cbn [form set_form name setName]. intros Et. rewrite Et. reflexivity.
    + unfold slugEffect. cbn [form set_form editingProduct name setName]. rewrite He. simpl.
      destruct (Js.truthy v) eqn:Et; cbn [form set_form name setName setSlug];
        intros Et'; [reflexivity | congruence].
Qed.

End SlugHistory.

(** X15. While a new product is being created, starting from a form
    whose slug is the slug of its name, the slug after any edits of the
    name is the slug of the last non-empty name the field has held (of
    the empty name if there was none): clearing the field keeps the slug
    of what was typed before. *)
Theorem slug_follows_last_nonempty_name (vs : list string) (st : Dashboard)
    (Hcreate : editingProduct st = None)
    (Hslug : slug (form st) = generatedSlug (name (form st))) :
  slug (form (changeNames vs st)) = generatedSlug (lastTruthy (name (form st) :: vs)).
Proof.
  unfold lastTruthy. simpl foldl.
  apply changeNames_invariant; [exact Hcreate | |].
  - destruct (name (form st)); [exact Hslug | exact Hslug].
  - intros Et. rewrite Et. reflexivity.
Qed.

Lemma slug_follows_last_nonempty_name_witness :
  editingProduct freshDashboard = None /\
  slug (form freshDashboard) = generatedSlug (name (form freshDashboard)) /\
  slug (form (changeNames ["B"; "Ba"; "Bag"; "Bag &"; ""] freshDashboard)) = "bag-and".
Proof.
  split; [reflexivity|]. split; [reflexivity|].
  exact (slug_follows_last_nonempty_name ["B"; "Ba"; "Bag"; "Bag &"; ""] freshDashboard
           eq_refl eq_refl).
Defined.
